(** * svg2img: the helpers and the svg -> raster pipeline of [svg2img.h]

    A shallow embedding of [include/svg2img.h]:
    - the pure helpers [ToCStr], [GetImageHeader], [GetImageFormat];
    - the C++ facade [raster::SvgToImage] and [raster::aux::ExecCb];
    - the JavaScript body of [raster::aux::SvgToImage] (the closure with
      [failed], [svgToDataUri], [drawSvg], [setCanvasSize], [processBlob],
      [loadImage]) as state-passing code over a world that holds the wasm
      heap, the continuation registered with the browser and a log of the
      observable actions. *)

From stdpp Require Import gmap.
From Stdlib Require Import NArith List String Ascii Strings.Byte Bool Lia.
From Stdlib Require Import Floats.SpecFloat.
Import ListNotations.

Local Open Scope string_scope.
Local Open Scope N_scope.

(* ====================================================================== *)
(** * Constants *)
(* ====================================================================== *)

(** [enum class Error : int]. *)
Module Error.
Inductive t : Set :=
| None
| NoInputData
| UriEncodingFailed
| ImgLoadingFailed
| CanvasDrawingFailed
| BlobExportFailed.

(** The enumerator values, which are also the numbers of the JS table
    [RasterError]. *)
Definition code (e : t) : N :=
  match e with
  | None => 0
  | NoInputData => 1
  | UriEncodingFailed => 2
  | ImgLoadingFailed => 3
  | CanvasDrawingFailed => 4
  | BlobExportFailed => 5
  end.

(** The enumerator an [int] that crosses the boundary stands for, if any. *)
Definition of_code (n : N) : option t :=
  match n with
  | 0 => Some None
  | 1 => Some NoInputData
  | 2 => Some UriEncodingFailed
  | 3 => Some ImgLoadingFailed
  | 4 => Some CanvasDrawingFailed
  | 5 => Some BlobExportFailed
  | _ => Datatypes.None
  end.
End Error.

(** [enum class Format : int]. *)
Module Format.
Inductive t : Set := Png | Jpeg | Webp | Unknown.
End Format.

(** [ToCStr(Error)] and [ToCStr(Format)]; the [default: assert(false)]
    branches have no enumerator left to reach them. *)
Definition ToCStr_Error (err : Error.t) : string :=
  match err with
  | Error.None => "raster::Error::None"
  | Error.NoInputData => "raster::Error::NoInputData"
  | Error.UriEncodingFailed => "raster::Error::UriEncodingFailed"
  | Error.ImgLoadingFailed => "raster::Error::ImgLoadingFailed"
  | Error.CanvasDrawingFailed => "raster::Error::CanvasDrawingFailed"
  | Error.BlobExportFailed => "raster::Error::BlobExportFailed"
  end.

Definition ToCStr_Format (fmt : Format.t) : string :=
  match fmt with
  | Format.Png => "png"
  | Format.Jpeg => "jpeg"
  | Format.Webp => "webp"
  | Format.Unknown => "unknown"
  end.

(* ====================================================================== *)
(** * Helpers: [GetImageHeader] and [GetImageFormat] *)
(* ====================================================================== *)

(** The characters a [std::string_view] ranges over.  In this first, by
    contents, reading of the helpers an iterator of the view is its offset
    from [cbegin()] and the sums [img.cbegin() + pos] and
    [img.cbegin() + pos + n] are taken exactly.  That is what the code does
    as long as no address sum wraps; the helpers on addresses, where the
    sums wrap as pointers do, are in [Flat] below and agree with these on
    that range ([GetImageHeader_in_range]). *)
Definition chars := list byte.

(** [img.size()], which is [img.cend() - img.cbegin()]. *)
Definition chars_size (img : chars) : N := N.of_nat (List.length img).

(** The elements of the iterator range [[first, last)]. *)
Definition range (img : chars) (first last : N) : list byte :=
  firstn (N.to_nat (last - first)) (skipn (N.to_nat first) img).

(** ** [std::format("{:02X}", ch)] for a [std::uint8_t] *)

(** The digits [std::format] writes for the presentation type [X]. *)
Definition upper_hex_digits : string := "0123456789ABCDEF".

Definition hex_digit_upper (d : N) : ascii :=
  match String.get (N.to_nat d) upper_hex_digits with
  | Some c => c
  | Datatypes.None => "F"%char
  end.

(** The digits of [v] in base 16, most significant first; [fuel] bounds the
    number of digits. *)
Fixpoint to_chars_hex (fuel : nat) (v : N) (acc : string) : string :=
  let acc' := String (hex_digit_upper (v mod 16)) acc in
  match fuel with
  | O => acc'
  | S fuel' => if v / 16 =? 0 then acc' else to_chars_hex fuel' (v / 16) acc'
  end.

(** Left padding with ['0'] up to [width] characters. *)
Definition zero_pad (width : nat) (s : string) : string :=
  (string_of_list_ascii (repeat "0"%char (width - String.length s)%nat) ++ s)%string.

Definition format_02X (ch : byte) : string :=
  let v := Byte.to_N ch in
  zero_pad 2 (to_chars_hex (N.to_nat (N.log2 v)) v "").

(** [header.pop_back()]. *)
Fixpoint pop_back (s : string) : string :=
  match s with
  | EmptyString => EmptyString
  | String _ EmptyString => EmptyString
  | String c s' => String c (pop_back s')
  end.

Definition empty (s : string) : bool :=
  match s with EmptyString => true | _ => false end.

(** [GetImageHeader] by contents: [None] is the failure of
    [assert(begin <= end && "Wrong header range")], which exact sums never
    let fail (see [Flat.GetImageHeader] for the sums of the machine). *)
Definition GetImageHeader (img : chars) (pos n : N) : option string :=
  let begin_ := N.min pos (chars_size img) in
  let end_ := N.min (pos + n) (chars_size img) in
  if begin_ <=? end_ then
    let out :=
      fold_left (fun out ch => (out ++ format_02X ch ++ " ")%string)
                (range img begin_ end_) "" in
    let header := out in
    Some (if negb (empty header) then pop_back header else header)
  else Datatypes.None.

(** [GetImageFormat]; a failed assertion inside [GetImageHeader] aborts it. *)
Definition png_sig := "89 50 4E 47 0D 0A 1A 0A".
Definition jpeg_sig := "FF D8".
Definition riff_sig := "52 49 46 46".
Definition webp_sig := "57 45 42 50".

Definition GetImageFormat (img : chars) : option Format.t :=
  match GetImageHeader img 0 8 with
  | Datatypes.None => Datatypes.None
  | Some h8 =>
    if String.eqb h8 png_sig then Some Format.Png else
    match GetImageHeader img 0 2 with
    | Datatypes.None => Datatypes.None
    | Some h2 =>
      if String.eqb h2 jpeg_sig then Some Format.Jpeg else
      match GetImageHeader img 0 4 with
      | Datatypes.None => Datatypes.None
      | Some h4 =>
        if String.eqb h4 riff_sig then
          match GetImageHeader img 8 4 with
          | Datatypes.None => Datatypes.None
          | Some w4 =>
            if String.eqb w4 webp_sig then Some Format.Webp
            else Some Format.Unknown
          end
        else Some Format.Unknown
      end
    end
  end.

(* ====================================================================== *)
(** * The world the pipeline runs in *)
(* ====================================================================== *)

(** Addresses of the wasm heap; [nullptr] is [0]. *)
Abbreviation ptr := N (only parsing).
Definition nullptr : ptr := 0.

(** A [std::string_view] as the callback receives it. *)
Record string_view := { sv_data : ptr; sv_size : N }.

(** [std::string_view()]. *)
Definition string_view_default : string_view :=
  {| sv_data := nullptr; sv_size := 0 |}.

(** A JavaScript number (and the C++ [float] it comes from). *)
Definition number := spec_float.

(** ToBoolean on a number: [+0], [-0] and [NaN] are falsy. *)
Definition truthy (v : number) : bool :=
  match v with
  | S754_zero _ => false
  | S754_nan => false
  | S754_infinity _ => true
  | S754_finite _ _ _ => true
  end.

(** How a call of the client's callback completes. *)
Inductive completion := Returns | Throws.

(** [using Callback = std::function<void(std::string_view img, Error err, void *meta)>]:
    the client's closure, as far as the library can tell: given the view,
    the characters it ranges over ([None] when it ranges over no live
    block), the error and the metadata, the call returns or throws. *)
Definition Callback :=
  string_view -> option chars -> Error.t -> ptr -> completion.

(** What lives at an address of the heap. *)
Inductive cell :=
| CallbackCopy (cb : Callback)   (* [new Callback(std::move(cb))] *)
| Block (bytes : chars).         (* [Module._malloc(n)] *)

(** An [<img>] element after decoding, and a [<canvas>] element. *)
Record Image := { img_src : string; img_width : number; img_height : number }.
Record Canvas := { canvas_width : number; canvas_height : number }.

(** The variables a continuation of the pipeline closes over: the
    parameters of the [EM_JS] function [SvgToImage]. *)
Record Closure := {
  c_data : list byte;                 (* [data], [size] *)
  c_pcb : ptr;
  c_meta : ptr;
  c_format : string;
  c_quality : number;
  c_x : number;
  c_y : number;
  c_width : number;
  c_height : number;
}.

(** The continuation the request has registered with the browser. *)
Inductive Pending :=
| Idle
| ImgPending (env : Closure) (src : string)
    (* [img.onload], [img.onerror] *)
| BlobPending (env : Closure) (canvas : Canvas)
    (* [canvas.toBlob(processBlob, fmt, quality)] *)
| ArrayBufferPending (env : Closure) (blob : list byte).
    (* [blob.arrayBuffer().then(loadImage, onRejected)] *)

(** The observable actions, in the order they happen. *)
Inductive Event :=
| EvNew (pcb : ptr)
| EvDelete (pcb : ptr)
| EvCallback (img : string_view) (seen : option chars) (err : Error.t)
             (meta : ptr)
| EvExecCb (pcb data : ptr) (size : N) (err : Error.t) (meta : ptr)
| EvMalloc (p : ptr) (n : N)
| EvFree (p : ptr)
| EvAlert
| EvEncodeURIComponent (svg : chars)
| EvImgSrc (src : string)
| EvCreateCanvas
| EvDrawImage (canvas : Canvas) (img : Image) (x y : number)
              (scaled : option (number * number))
| EvToBlob (canvas : Canvas) (fmt : string) (quality : number).

Record World := {
  heap : gmap N cell;
  pending : Pending;
  log : list Event;
}.

(** What the browser and the Emscripten runtime answer to the synchronous
    calls of the pipeline. *)
Record Host := {
  (* [None]: [encodeURIComponent] throws *)
  encodeURIComponent : chars -> option string;
  (* [false]: [canvas.getContext("2d")] is [null] *)
  getContext_2d : Canvas -> bool;
  (* [true]: [context.drawImage] throws *)
  drawImage_throws :
    Canvas -> Image -> number -> number -> option (number * number) -> bool;
  (* [true]: [canvas.toBlob] throws *)
  toBlob_throws : Canvas -> string -> number -> bool;
}.

(** What the browser delivers later, to the registered continuation. *)
Inductive HostEvent :=
| ImgLoad (width height : number)          (* [img.onload] *)
| ImgError                                 (* [img.onerror] *)
| BlobCallback (blob : option chars)       (* [None]: [null] *)
| ArrayBufferFulfilled
| ArrayBufferRejected.

(* ====================================================================== *)
(** * Computations: state passing with exceptions *)
(* ====================================================================== *)

(** [Undefined] is a use of a pointer that addresses no live object. *)
Inductive outcome (A : Type) :=
| Normal (a : A)
| Exception
| Undefined.
Arguments Normal {A} a.
Arguments Exception {A}.
Arguments Undefined {A}.

Definition js (A : Type) := World -> outcome A * World.

Definition ret {A} (a : A) : js A := fun w => (Normal a, w).
Definition throw {A} : js A := fun w => (Exception, w).

Definition bind {A B} (m : js A) (k : A -> js B) : js B := fun w =>
  match m w with
  | (Normal a, w') => k a w'
  | (Exception, w') => (Exception, w')
  | (Undefined, w') => (Undefined, w')
  end.

Declare Scope js_scope.
Delimit Scope js_scope with js.
Notation "'let*' x ':=' m 'in' k" := (bind m (fun x => k))
  (at level 10, x name, m at level 100, k at level 200) : js_scope.
Notation "m ';;' k" := (bind m (fun _ => k))
  (at level 100, k at level 200, right associativity) : js_scope.

(** [try { body } catch (e) { handler }]. *)
Definition try_catch {A} (body handler : js A) : js A := fun w =>
  match body w with
  | (Exception, w') => handler w'
  | r => r
  end.

(** [try { body } catch (e) { handler } finally { cleanup }]. *)
Definition try_catch_finally {A} (body handler : js A) (cleanup : js unit)
  : js A := fun w =>
  match try_catch body handler w with
  | (Undefined, w') => (Undefined, w')
  | (o, w') =>
    match cleanup w' with
    | (Normal _, w'') => (o, w'')
    | (Exception, w'') => (Exception, w'')
    | (Undefined, w'') => (Undefined, w'')
    end
  end.

Definition emit (ev : Event) : js unit := fun w =>
  (Normal tt,
   {| heap := heap w; pending := pending w; log := log w ++ [ev] |}).

Definition set_pending (p : Pending) : js unit := fun w =>
  (Normal tt, {| heap := heap w; pending := p; log := log w |}).

Definition set_heap (h : gmap N cell) : js unit := fun w =>
  (Normal tt, {| heap := h; pending := pending w; log := log w |}).

(** The allocator, taken to succeed: an address of no live object, never
    [nullptr]. *)
Definition fresh_addr (h : gmap N cell) : ptr := fresh ({[nullptr]} ∪ dom h).

(** The characters a view ranges over, when it lies in a live block. *)
Definition view_chars (h : gmap N cell) (v : string_view) : option chars :=
  if sv_size v =? 0 then Some []
  else match h !! sv_data v with
       | Some (Block bytes) =>
         if sv_size v <=? chars_size bytes
         then Some (firstn (N.to_nat (sv_size v)) bytes)
         else Datatypes.None
       | _ => Datatypes.None
       end.

(** [cb(img, err, meta)]. *)
Definition call (cb : Callback) (img : string_view) (err : Error.t)
  (meta : ptr) : js unit := fun w =>
  let seen := view_chars (heap w) img in
  match emit (EvCallback img seen err meta) w with
  | (_, w') =>
    match cb img seen err meta with
    | Returns => (Normal tt, w')
    | Throws => (Exception, w')
    end
  end.

(** [new Callback(std::move(cb))]. *)
Definition new_Callback (cb : Callback) : js ptr := fun w =>
  let pcb := fresh_addr (heap w) in
  (set_heap (<[pcb := CallbackCopy cb]> (heap w)) ;;
   emit (EvNew pcb) ;;
   ret pcb)%js w.

(** [delete pcb]. *)
Definition delete_Callback (pcb : ptr) : js unit := fun w =>
  match heap w !! pcb with
  | Some (CallbackCopy _) =>
    (set_heap (delete pcb (heap w)) ;; emit (EvDelete pcb))%js w
  | _ => (Undefined, w)
  end.

(** [Module._malloc(n)]: a block of [n] bytes. *)
Definition _malloc (n : N) : js ptr := fun w =>
  let p := fresh_addr (heap w) in
  (set_heap (<[p := Block (repeat x00 (N.to_nat n))]> (heap w)) ;;
   emit (EvMalloc p n) ;;
   ret p)%js w.

(** [writeArrayToMemory(arr, p)]. *)
Definition writeArrayToMemory (arr : chars) (p : ptr) : js unit := fun w =>
  match heap w !! p with
  | Some (Block bytes) =>
    set_heap
      (<[p := Block (arr ++ skipn (List.length arr) bytes)%list]> (heap w)) w
  | _ => (Undefined, w)
  end.

(** [Module._free(p)]. *)
Definition _free (p : ptr) : js unit := fun w =>
  match heap w !! p with
  | Some (Block _) => (set_heap (delete p (heap w)) ;; emit (EvFree p))%js w
  | _ => (Undefined, w)
  end.

(* ====================================================================== *)
(** * Implementation details: [namespace raster::aux] *)
(* ====================================================================== *)

Module aux.

(** [extern "C" void ExecCb(PCallback pcb, const char *data,
    std::size_t size, const Error err, void *meta)]. *)
Definition ExecCb (pcb data : ptr) (size : N) (err : Error.t) (meta : ptr)
  : js unit := fun w =>
  match heap w !! pcb with
  | Some (CallbackCopy cb) =>            (* const Callback cb = *pcb; *)
    ((if negb (data =? nullptr) && (0 <? size)
      then call cb {| sv_data := data; sv_size := size |} err meta
      else call cb string_view_default err meta) ;;
     delete_Callback pcb)%js w
  | _ => (Undefined, w)
  end.

(** The table [RasterError] of the JavaScript side. *)
Module RasterError.
Definition None : N := 0.
Definition NoInputData : N := 1.
Definition UriEncodingFailed : N := 2.
Definition ImgLoadingFailed : N := 3.
Definition CanvasDrawingFailed : N := 4.
Definition BlobExportFailed : N := 5.
End RasterError.

(** [Module.ccall("ExecCb", "v", [...], [pcb, data, size, err, meta])]:
    every argument crosses as a number, [err] becoming the [Error] of that
    value; a C++ exception leaving [ExecCb] is a JavaScript exception
    here.  The script passes entries of [RasterError] only.  A number that
    is no entry of the table would reach the callback as an [Error] that
    is none of the six enumerators; [Error.t] has no such value, and the
    call is left outside what is modelled ([Undefined]). *)
Definition ccall_ExecCb (pcb data : ptr) (size : N) (err : N)
  (meta : ptr) : js unit :=
  match Error.of_code err with
  | Some e =>
    (emit (EvExecCb pcb data size e meta) ;;
     ExecCb pcb data size e meta)%js
  | Datatypes.None => fun w => (Undefined, w)
  end.

(** [UTF8ToString(data, size)]: the characters up to the first NUL, at
    most [size] of them (kept as the bytes they are). *)
Fixpoint UTF8ToString (data : chars) : chars :=
  match data with
  | [] => []
  | c :: data' => if Byte.eqb c x00 then [] else c :: UTF8ToString data'
  end.

(** [UTF8ToString(format)] on the pointer [format.c_str()], with no
    length: the characters up to the first NUL, which is the terminator of
    the [std::string] or a NUL the string holds before it. *)
Fixpoint UTF8ToString_c_str (s : string) : string :=
  match s with
  | EmptyString => EmptyString
  | String c s' =>
    if Ascii.eqb c "000"%char then EmptyString
    else String c (UTF8ToString_c_str s')
  end.

(** [document.createElement("canvas")]: 300 x 150 by default. *)
Definition createElement_canvas : js Canvas :=
  (emit EvCreateCanvas ;;
   ret {| canvas_width := S754_finite false 300 0;
          canvas_height := S754_finite false 150 0 |})%js.

(** The body of the [EM_JS] function [SvgToImage]; its parameters are the
    variables of the closure. *)
Section SvgToImage.
Variable host : Host.
Variable data : chars.       (* [data], [size] *)
Variables pcb meta : ptr.
Variable format : string.
Variables quality x y width height : number.

Definition closure : Closure :=
  {| c_data := data; c_pcb := pcb; c_meta := meta; c_format := format;
     c_quality := quality; c_x := x; c_y := y;
     c_width := width; c_height := height |}.

(** Signals the client about an error. *)
Definition failed (err : N) : js unit :=
  ccall_ExecCb pcb 0 0 err meta.

(** Encodes raw svg as data uri. *)
Definition svgToDataUri : js (option string) :=
  let svg := UTF8ToString data in
  try_catch
    (emit (EvEncodeURIComponent svg) ;;
     match encodeURIComponent host svg with
     | Some enc =>
       ret (Some ("data:image/svg+xml;charset=utf8," ++ enc)%string)
     | Datatypes.None => throw
     end)%js
    (failed RasterError.UriEncodingFailed ;;
     ret Datatypes.None)%js.

(** Sets [<canvas>] width/height considering the input arguments or
    image size. *)
Definition setCanvasSize (canvas : Canvas) (w h : number) (img : Image)
  : Canvas :=
  if truthy width && truthy height
  then {| canvas_width := w; canvas_height := h |}
  else {| canvas_width := img_width img; canvas_height := img_height img |}.

(** [context.drawImage(...)]; [context] is [null] when [getContext]
    found no context. *)
Definition drawImage (context : bool) (canvas : Canvas) (img : Image)
  (dx dy : number) (scaled : option (number * number)) : js unit :=
  if context then
    (emit (EvDrawImage canvas img dx dy scaled) ;;
     if drawImage_throws host canvas img dx dy scaled
     then throw else ret tt)%js
  else throw.

(** [canvas.toBlob(processBlob, fmt, quality)]. *)
Definition toBlob (canvas : Canvas) (fmt : string) (q : number)
  : js unit :=
  (emit (EvToBlob canvas fmt q) ;;
   if toBlob_throws host canvas fmt q then throw
   else set_pending (BlobPending closure canvas))%js.

(** Draws svg on [<canvas>] for further image export. *)
Definition drawSvg (img : Image) (fmt : string) : js unit :=
  (let* canvas := createElement_canvas in
   let canvas := setCanvasSize canvas width height img in
   let context := getContext_2d host canvas in
   try_catch
     ((if truthy width && truthy height
       then drawImage context canvas img x y (Some (width, height))
       else drawImage context canvas img x y Datatypes.None) ;;
      toBlob canvas fmt quality)
     (failed RasterError.CanvasDrawingFailed))%js.

(** Processes the [<canvas>] blob. *)
Definition processBlob (blob : option chars) : js unit :=
  match blob with
  | Datatypes.None => failed RasterError.BlobExportFailed  (* [!blob] *)
  | Some bytes => set_pending (ArrayBufferPending closure bytes)
  end.

Definition onRejected : js unit := failed RasterError.BlobExportFailed.

(** Loads raster image on the heap and calls the callback. *)
Definition loadImage (buf : chars) : js unit :=
  let arr := buf in
  (let* on_heap := _malloc (chars_size arr) in
   writeArrayToMemory arr on_heap ;;
   try_catch_finally
     (ccall_ExecCb pcb on_heap (chars_size arr) RasterError.None meta)
     (emit EvAlert)
     (_free on_heap))%js.

(** [const sformat = UTF8ToString(format)]: the JS string the handler
    [img.onload] closes over. *)
Definition sformat : string := UTF8ToString_c_str format.

(** Main: after [img.src = data_uri] the handlers [img.onerror] and
    [img.onload] wait for the one event of the load ([img.error] is a plain
    property that no event reads). *)
Definition SvgToImage : js unit :=
  (let* data_uri := svgToDataUri in
   match data_uri with
   | Datatypes.None => ret tt
   | Some uri =>
     let sformat := sformat in
     emit (EvImgSrc uri) ;;
     set_pending (ImgPending closure uri)
   end)%js.

End SvgToImage.

(** The browser runs the continuation that waits for [ev], with the
    variables it closed over ([drawSvg] gets [sformat], the JS string
    made of [format]); an event nothing waits for is not delivered. *)
Definition dispatch (host : Host) (ev : HostEvent) : js unit := fun w =>
  match pending w, ev with
  | ImgPending c src, ImgLoad iw ih =>
    (set_pending Idle ;;
     drawSvg host (c_data c) (c_pcb c) (c_meta c) (c_format c)
             (c_quality c) (c_x c) (c_y c) (c_width c) (c_height c)
             {| img_src := src; img_width := iw; img_height := ih |}
             (sformat (c_format c)))%js w
  | ImgPending c _, ImgError =>
    (set_pending Idle ;;
     failed (c_pcb c) (c_meta c) RasterError.ImgLoadingFailed)%js w
  | BlobPending c _, BlobCallback blob =>
    (set_pending Idle ;;
     processBlob (c_data c) (c_pcb c) (c_meta c) (c_format c)
                 (c_quality c) (c_x c) (c_y c) (c_width c) (c_height c)
                 blob)%js w
  | ArrayBufferPending c blob, ArrayBufferFulfilled =>
    (set_pending Idle ;; loadImage (c_pcb c) (c_meta c) blob)%js w
  | ArrayBufferPending c _, ArrayBufferRejected =>
    (set_pending Idle ;; onRejected (c_pcb c) (c_meta c))%js w
  | _, _ => (Normal tt, w)
  end.

(** The event loop: an exception that leaves a continuation is reported
    and the loop goes on; [None] when a continuation used a pointer to
    no live object. *)
Fixpoint run (host : Host) (evs : list HostEvent) (w : World)
  : option World :=
  match evs with
  | [] => Some w
  | ev :: evs' =>
    match dispatch host ev w with
    | (Undefined, _) => Datatypes.None
    | (_, w') => run host evs' w'
    end
  end.

End aux.

(* ====================================================================== *)
(** * End-user api: [raster::SvgToImage] *)
(* ====================================================================== *)

Definition SvgToImage (host : Host) (svg : chars) (cb : Callback)
  (meta : ptr) (format : string) (quality x y width height : number)
  : js unit :=
  if match svg with
     | [] => true                              (* svg.empty() *)
     | c :: _ => Byte.eqb c x00                (* svg[0] == '\0' *)
     end
  then call cb string_view_default Error.NoInputData meta
  else
    (let* pcb := new_Callback cb in
     aux.SvgToImage host svg pcb meta format quality x y width height)%js.

(** The arguments of one call of [raster::SvgToImage]. *)
Record Request := {
  svg : chars;
  cb : Callback;
  meta : ptr;
  format : string;
  quality : number;
  x : number;
  y : number;
  width : number;
  height : number;
}.

(** A request from its issue to the end of the schedule [evs] of browser
    events, on a heap [h] with nothing pending. *)
Definition start (h : gmap N cell) : World :=
  {| heap := h; pending := Idle; log := [] |}.

Definition issue (host : Host) (r : Request) : js unit :=
  SvgToImage host (svg r) (cb r) (meta r) (format r) (quality r)
             (x r) (y r) (width r) (height r).

Definition request (host : Host) (r : Request) (h : gmap N cell)
  (evs : list HostEvent) : option World :=
  match issue host r (start h) with
  | (Undefined, _) => Datatypes.None
  | (_, w) => aux.run host evs w
  end.

(* ====================================================================== *)
(** * The words of the specification *)
(* ====================================================================== *)

(** The value of an upper-case hexadecimal digit: its place among
    [0123456789ABCDEF]. *)
Fixpoint place_of (c : ascii) (digits : string) (i : N) : option N :=
  match digits with
  | EmptyString => Datatypes.None
  | String d digits' =>
    if Ascii.eqb c d then Some i else place_of c digits' (N.succ i)
  end.

Definition upper_hex_value (c : ascii) : option N :=
  place_of c "0123456789ABCDEF" 0.

(** An upper-case two-digit hex pair, and the byte it writes. *)
Definition byte_of_hex_pair (s : string) : option byte :=
  match s with
  | String hi (String lo EmptyString) =>
    match upper_hex_value hi, upper_hex_value lo with
    | Some h, Some l => Byte.of_N (16 * h + l)
    | _, _ => Datatypes.None
    end
  | _ => Datatypes.None
  end.

Definition hex_pair (b : byte) : string :=
  String (hex_digit_upper (Byte.to_N b / 16))
         (String (hex_digit_upper (Byte.to_N b mod 16)) EmptyString).

(** Hex pairs separated by exactly one space: no space before the first
    pair, none after the last. *)
Fixpoint hex_pairs (bytes : list byte) : string :=
  match bytes with
  | [] => ""
  | [b] => hex_pair b
  | b :: bytes' => (hex_pair b ++ " " ++ hex_pairs bytes')%string
  end.

(** The bytes of [[pos, pos + n)] that lie inside the buffer. *)
Definition clipped (img : chars) (pos n : N) : list byte :=
  firstn (N.to_nat n) (skipn (N.to_nat pos) img).

(** The fixed signatures, and a signature sitting at an offset. *)
Definition png_magic : list byte := [x89; x50; x4e; x47; x0d; x0a; x1a; x0a].
Definition jpeg_magic : list byte := [xff; xd8].
Definition riff_magic : list byte := [x52; x49; x46; x46].    (* "RIFF" *)
Definition webp_magic : list byte := [x57; x45; x42; x50].    (* "WEBP" *)

Definition magic_at (img : chars) (offset : nat) (magic : list byte) : Prop :=
  firstn (List.length magic) (skipn offset img) = magic.

(** What the stream holds after the loop: every pair followed by a space. *)
Fixpoint spaced (bytes : list byte) : string :=
  match bytes with
  | [] => ""
  | b :: bytes' => (hex_pair b ++ " " ++ spaced bytes')%string
  end.

(** The decision tree of [GetImageFormat], on bytes. *)
Inductive sniffed (img : chars) : Format.t -> Prop :=
| sniffed_png :
    magic_at img 0 png_magic -> sniffed img Format.Png
| sniffed_jpeg :
    ~ magic_at img 0 png_magic -> magic_at img 0 jpeg_magic ->
    sniffed img Format.Jpeg
| sniffed_webp :
    ~ magic_at img 0 png_magic -> ~ magic_at img 0 jpeg_magic ->
    magic_at img 0 riff_magic -> magic_at img 8 webp_magic ->
    sniffed img Format.Webp
| sniffed_unknown :
    ~ magic_at img 0 png_magic -> ~ magic_at img 0 jpeg_magic ->
    ~ (magic_at img 0 riff_magic /\ magic_at img 8 webp_magic) ->
    sniffed img Format.Unknown.

(* ====================================================================== *)
(** * Reading a log *)
(* ====================================================================== *)

(** The calls of the client's callback, with what it received. *)
Definition callbacks (l : list Event)
  : list (string_view * option chars * Error.t * ptr) :=
  omap (fun ev => match ev with
                  | EvCallback img seen err meta => Some (img, seen, err, meta)
                  | _ => Datatypes.None
                  end) l.

(** The terminal edges that fired: the calls of [ExecCb] from the pipeline. *)
Definition executions (l : list Event) : list Error.t :=
  omap (fun ev => match ev with
                  | EvExecCb _ _ _ err _ => Some err
                  | _ => Datatypes.None
                  end) l.

(** The callback handles created and destroyed. *)
Definition created (l : list Event) : list ptr :=
  omap (fun ev => match ev with EvNew p => Some p | _ => Datatypes.None end) l.
Definition destroyed (l : list Event) : list ptr :=
  omap (fun ev => match ev with EvDelete p => Some p | _ => Datatypes.None end)
       l.

(** The transient buffers allocated and freed. *)
Definition allocated (l : list Event) : list (ptr * N) :=
  omap (fun ev => match ev with
                  | EvMalloc p n => Some (p, n)
                  | _ => Datatypes.None
                  end) l.
Definition freed (l : list Event) : list ptr :=
  omap (fun ev => match ev with EvFree p => Some p | _ => Datatypes.None end) l.

(** The stages of the pipeline, and the action that enters each. *)
Inductive Stage :=
| Encoding | Loading | Drawing | Exporting | Done | Failed (err : Error.t).

Definition stage_entered (ev : Event) : option Stage :=
  match ev with
  | EvEncodeURIComponent _ => Some Encoding
  | EvImgSrc _ => Some Loading
  | EvCreateCanvas => Some Drawing
  | EvToBlob _ _ _ => Some Exporting
  | EvExecCb _ _ _ Error.None _ => Some Done
  | EvExecCb _ _ _ err _ => Some (Failed err)
  | _ => Datatypes.None
  end.

Definition stages (l : list Event) : list Stage := omap stage_entered l.

Definition stage_index (s : Stage) : nat :=
  match s with
  | Encoding => 0 | Loading => 1 | Drawing => 2 | Exporting => 3
  | Done => 4 | Failed _ => 4
  end.

(** Every stage comes after the ones before it: none is entered twice, and
    at most one of [Done] and [Failed] is. *)
Fixpoint ascending (l : list nat) : bool :=
  match l with
  | a :: (b :: _) as l' => (a <? b)%nat && ascending l'
  | _ => true
  end.

Definition no_stage_revisited (l : list Event) : Prop :=
  ascending (map stage_index (stages l)) = true.

(** The events a pending continuation waits for, and how many events a
    request in that state can still take. *)
Definition awaits (p : Pending) (ev : HostEvent) : bool :=
  match p, ev with
  | ImgPending _ _, ImgLoad _ _ => true
  | ImgPending _ _, ImgError => true
  | BlobPending _ _, BlobCallback _ => true
  | ArrayBufferPending _ _, ArrayBufferFulfilled => true
  | ArrayBufferPending _ _, ArrayBufferRejected => true
  | _, _ => false
  end.

Definition steps_left (p : Pending) : nat :=
  match p with
  | Idle => 0
  | ArrayBufferPending _ _ => 1
  | BlobPending _ _ => 2
  | ImgPending _ _ => 3
  end.

(** Non-empty markup that does not begin with the terminator. *)
Definition has_input (svg : chars) : bool :=
  match svg with
  | [] => false
  | c :: _ => negb (Byte.eqb c x00)
  end.

(** A number that is not zero, and one that is. *)
Definition nonzero (v : number) : Prop :=
  match v with
  | S754_finite _ _ _ => True
  | S754_infinity _ => True
  | _ => False
  end.

Definition is_zero (v : number) : Prop :=
  match v with S754_zero _ => True | _ => False end.

(* ====================================================================== *)
(** * The shapes of a request in flight *)
(* ====================================================================== *)

Section Shapes.
Variable host : Host.
Variable r : Request.
Variable h : gmap N cell.       (* the heap when the request is issued *)

(** The handle of the request, its closure, and the heap while the handle
    lives. *)
Definition handle : ptr := fresh_addr h.

Definition env : Closure :=
  aux.closure (svg r) handle (meta r) (format r) (quality r)
              (x r) (y r) (width r) (height r).

Definition in_flight : gmap N cell :=
  <[handle := CallbackCopy (cb r)]> h.

(** The log up to each stage. *)
Definition log_encoding : list Event :=
  [EvNew handle; EvEncodeURIComponent (aux.UTF8ToString (svg r))].

Definition log_loading (uri : string) : list Event :=
  log_encoding ++ [EvImgSrc uri].

Definition log_canvas (uri : string) : list Event :=
  log_loading uri ++ [EvCreateCanvas].

Definition log_drawing (uri : string) (canvas : Canvas) (img : Image)
  (scaled : option (number * number)) : list Event :=
  log_canvas uri ++ [EvDrawImage canvas img (x r) (y r) scaled].

Definition log_exporting (uri : string) (canvas : Canvas) (img : Image)
  (scaled : option (number * number)) : list Event :=
  log_drawing uri canvas img scaled
  ++ [EvToBlob canvas (aux.sformat (format r)) (quality r)].

(** Where a failure edge can leave from, and with which error. *)
Inductive fails_after : list Event -> Error.t -> Prop :=
| fails_encoding :
    fails_after log_encoding Error.UriEncodingFailed
| fails_loading uri :
    fails_after (log_loading uri) Error.ImgLoadingFailed
| fails_context uri :
    fails_after (log_canvas uri) Error.CanvasDrawingFailed
| fails_drawing uri canvas img scaled :
    fails_after (log_drawing uri canvas img scaled)
                Error.CanvasDrawingFailed
| fails_toBlob uri canvas img scaled :
    fails_after (log_exporting uri canvas img scaled)
                Error.CanvasDrawingFailed
| fails_exporting uri canvas img scaled :
    fails_after (log_exporting uri canvas img scaled)
                Error.BlobExportFailed.

(** The heap and the rest of the log once the callback has completed:
    [ExecCb] deletes the handle after a callback that returns. *)
Definition heap_after (k : completion) : gmap N cell :=
  match k with Returns => h | Throws => in_flight end.

Definition log_after_failure (k : completion) : list Event :=
  match k with Returns => [EvDelete handle] | Throws => [] end.

Definition log_after_success (k : completion) (on_heap : ptr)
  : list Event :=
  match k with
  | Returns => [EvDelete handle; EvFree on_heap]
  | Throws => [EvAlert; EvFree on_heap]
  end.

(** The view [ExecCb] hands to the callback. *)
Definition view_of (data : ptr) (size : N) : string_view :=
  if negb (data =? nullptr) && (0 <? size)
  then {| sv_data := data; sv_size := size |}
  else string_view_default.

(** The worlds a request can be in. *)
Inductive phase : World -> Prop :=
| phase_loading uri :
    phase {| heap := in_flight;
             pending := ImgPending env uri;
             log := log_loading uri |}
| phase_exporting uri canvas img scaled :
    phase {| heap := in_flight;
             pending := BlobPending env canvas;
             log := log_exporting uri canvas img scaled |}
| phase_reading uri canvas img scaled blob :
    phase {| heap := in_flight;
             pending := ArrayBufferPending env blob;
             log := log_exporting uri canvas img scaled |}
| phase_failed pre err k :
    fails_after pre err ->
    k = cb r string_view_default (Some []) err (meta r) ->
    phase {| heap := heap_after k;
             pending := Idle;
             log := pre
                    ++ [EvExecCb handle 0 0 err (meta r);
                        EvCallback string_view_default (Some []) err
                                   (meta r)]
                    ++ log_after_failure k |}
| phase_done uri canvas img scaled blob on_heap k :
    on_heap = fresh_addr in_flight ->
    k = cb r (view_of on_heap (chars_size blob)) (Some blob) Error.None
           (meta r) ->
    phase {| heap := heap_after k;
             pending := Idle;
             log := log_exporting uri canvas img scaled
                    ++ [EvMalloc on_heap (chars_size blob);
                        EvExecCb handle on_heap (chars_size blob)
                                 Error.None (meta r);
                        EvCallback (view_of on_heap (chars_size blob))
                                   (Some blob) Error.None (meta r)]
                    ++ log_after_success k on_heap |}.
End Shapes.

(** A world after more actions were logged. *)
Definition logged (evs : list Event) (w : World) : World :=
  {| heap := heap w; pending := pending w; log := log w ++ evs |}.

(** The canvas and the scaling [drawSvg] settles on. *)
Definition canvas_for (width height : number) (img : Image) : Canvas :=
  if truthy width && truthy height
  then {| canvas_width := width; canvas_height := height |}
  else {| canvas_width := img_width img; canvas_height := img_height img |}.

Definition scaling_for (width height : number) : option (number * number) :=
  if truthy width && truthy height then Some (width, height)
  else Datatypes.None.

(* ====================================================================== *)
(** * Sample inputs *)
(* ====================================================================== *)

Definition sample_host : Host :=
  {| encodeURIComponent := fun _ => Some "%3Csvg%2F%3E";
     getContext_2d := fun _ => true;
     drawImage_throws := fun _ _ _ _ _ => false;
     toBlob_throws := fun _ _ _ => false |}.

Definition returning : Callback := fun _ _ _ _ => Returns.
Definition throwing : Callback := fun _ _ _ _ => Throws.

(** [SvgToImage("<svg/>", cb, meta)] with the default arguments, and the
    same with an explicit 64 x 32 output. *)
Definition sample_request (cb : Callback) : Request :=
  {| svg := [x3c; x73; x76; x67; x2f; x3e];
     cb := cb;
     meta := 7;
     format := "image/png";
     quality := S754_finite false 1 0;
     x := S754_zero false;
     y := S754_zero false;
     width := S754_zero false;
     height := S754_zero false |}.

Definition sized_request (cb : Callback) : Request :=
  {| svg := [x3c; x73; x76; x67; x2f; x3e];
     cb := cb;
     meta := 7;
     format := "image/png";
     quality := S754_finite false 1 0;
     x := S754_zero false;
     y := S754_zero false;
     width := S754_finite false 64 0;
     height := S754_finite false 32 0 |}.

(** The same with a format that holds a NUL: [std::string("image/jpeg\0png", 14)]. *)
Definition cut_format_request (cb : Callback) : Request :=
  {| svg := [x3c; x73; x76; x67; x2f; x3e];
     cb := cb;
     meta := 7;
     format := "image/jpeg" ++ String "000"%char "png";
     quality := S754_finite false 1 0;
     x := S754_zero false;
     y := S754_zero false;
     width := S754_zero false;
     height := S754_zero false |}.

Definition empty_request (cb : Callback) : Request :=
  {| svg := [];
     cb := cb;
     meta := 7;
     format := "image/png";
     quality := S754_finite false 1 0;
     x := S754_zero false;
     y := S754_zero false;
     width := S754_zero false;
     height := S754_zero false |}.

(** A decoded 10 x 20 image, then an export of the 8 bytes of the PNG
    magic, read successfully. *)
Definition sample_schedule : list HostEvent :=
  [ImgLoad (S754_finite false 10 0) (S754_finite false 20 0);
   BlobCallback (Some png_magic);
   ArrayBufferFulfilled].

(** The same with an export of zero bytes. *)
Definition empty_export_schedule : list HostEvent :=
  [ImgLoad (S754_finite false 10 0) (S754_finite false 20 0);
   BlobCallback (Some []);
   ArrayBufferFulfilled].

(** A world where one handle lives at address 1 and nothing is pending,
    and one where the export of a 64 x 32 canvas is pending. *)
Definition sample_world (cb : Callback) : World :=
  {| heap := {[1 := CallbackCopy cb]}; pending := Idle; log := [] |}.

Definition sample_closure : Closure :=
  aux.closure [x3c; x73; x76; x67; x2f; x3e] 1 7 "image/png"
              (S754_finite false 1 0) (S754_zero false) (S754_zero false)
              (S754_finite false 64 0) (S754_finite false 32 0).

Definition exporting_world (cb : Callback) : World :=
  {| heap := {[1 := CallbackCopy cb]};
     pending :=
       BlobPending sample_closure
                   {| canvas_width := S754_finite false 64 0;
                      canvas_height := S754_finite false 32 0 |};
     log := [] |}.

(** The calls on the drawing surface. *)
Definition surface_actions (l : list Event) : list Event :=
  filter (fun ev => match ev with
                    | EvDrawImage _ _ _ _ _ => true
                    | EvToBlob _ _ _ => true
                    | _ => false
                    end) l.

(** Two headers put side by side: one space between them when neither is
    empty. *)
Definition glue (s t : string) : string :=
  if empty s then t else if empty t then s else (s ++ " " ++ t)%string.

(** How many leading bytes the signature test of a format reads. *)
Definition signature_length (fmt : Format.t) : nat :=
  match fmt with
  | Format.Png => 8
  | Format.Jpeg => 2
  | Format.Webp => 12
  | Format.Unknown => 0
  end.

(** The variables a pending continuation closed over. *)
Definition closure_of (p : Pending) : option Closure :=
  match p with
  | Idle => Datatypes.None
  | ImgPending c _ => Some c
  | BlobPending c _ => Some c
  | ArrayBufferPending c _ => Some c
  end.

(** The schedule [evs] has handed [bytes] to the request as the result
    of its export: the browser called the callback of [toBlob] with a blob
    of these bytes at a moment when the request was waiting for it. *)
Definition exported (host : Host) (r : Request) (h : gmap N cell)
  (evs : list HostEvent) (bytes : chars) : Prop :=
  exists before after w c canvas,
    evs = (before ++ BlobCallback (Some bytes) :: after)%list
    /\ request host r h before = Some w
    /\ pending w = BlobPending c canvas.

(* ====================================================================== *)
(** * The helpers on addresses *)
(* ====================================================================== *)

(** [GetImageHeader] and [GetImageFormat] as the machine runs them: a
    [std::string_view] is a pointer and a size, its iterators are addresses,
    and a sum of a pointer and a [std::size_t] wraps at the width [bits] of
    an address.  Every address is taken to be readable. *)
Module Flat.

Definition memory := N -> byte.

Section Machine.
Variable bits : N.
Variable mem : memory.

Definition SIZE_MAX : N := 2 ^ bits - 1.

(** The address a sum comes to. *)
Definition wrap (a : N) : N := a mod 2 ^ bits.

(** The elements of the pointer range [[first, last)]. *)
Definition range (first last : N) : list byte :=
  map (fun i => mem (first + N.of_nat i)) (seq 0 (N.to_nat (last - first))).

Definition cbegin (img : string_view) : N := sv_data img.
Definition cend (img : string_view) : N := wrap (sv_data img + sv_size img).

(** [GetImageHeader]: [None] is the failure of
    [assert(begin <= end && "Wrong header range")]. *)
Definition GetImageHeader (img : string_view) (pos n : N) : option string :=
  let begin_ := N.min (wrap (cbegin img + pos)) (cend img) in
  let end_ := N.min (wrap (wrap (cbegin img + pos) + n)) (cend img) in
  if begin_ <=? end_ then
    let out :=
      fold_left (fun out ch => (out ++ format_02X ch ++ " ")%string)
                (range begin_ end_) "" in
    let header := out in
    Some (if negb (empty header) then pop_back header else header)
  else Datatypes.None.

(** [GetImageFormat]; a failed assertion inside [GetImageHeader] aborts it. *)
Definition GetImageFormat (img : string_view) : option Format.t :=
  match GetImageHeader img 0 8 with
  | Datatypes.None => Datatypes.None
  | Some h8 =>
    if String.eqb h8 png_sig then Some Format.Png else
    match GetImageHeader img 0 2 with
    | Datatypes.None => Datatypes.None
    | Some h2 =>
      if String.eqb h2 jpeg_sig then Some Format.Jpeg else
      match GetImageHeader img 0 4 with
      | Datatypes.None => Datatypes.None
      | Some h4 =>
        if String.eqb h4 riff_sig then
          match GetImageHeader img 8 4 with
          | Datatypes.None => Datatypes.None
          | Some w4 =>
            if String.eqb w4 webp_sig then Some Format.Webp
            else Some Format.Unknown
          end
        else Some Format.Unknown
      end
    end
  end.

(** The characters a view ranges over. *)
Definition contents (img : string_view) : chars :=
  range (sv_data img) (sv_data img + sv_size img).

End Machine.
End Flat.

(** Three bytes [89 50 4E] at the address 16, after a byte [AF]. *)
Definition sample_memory : Flat.memory := fun a =>
  if a =? 15 then xaf
  else if a =? 16 then x89
  else if a =? 17 then x50
  else if a =? 18 then x4e
  else x00.

Definition sample_view : string_view := {| sv_data := 16; sv_size := 3 |}.

(* ====================================================================== *)
(** * Several requests on one page *)
(* ====================================================================== *)

(** The page: one heap and one log for all requests, and for each request
    issued so far the continuation the browser holds for it. *)
Record Tab := {
  tab_heap : gmap N cell;
  tab_pending : list Pending;
  tab_log : list Event;
}.

(** What happens on the page: the program calls [raster::SvgToImage], or
    the browser fires an event at the continuation of the [i]-th request. *)
Inductive TabAction :=
| Issue (r : Request)
| Deliver (i : nat) (ev : HostEvent).

Definition tab_step (host : Host) (a : TabAction) (t : Tab) : option Tab :=
  match a with
  | Issue r =>
    match issue host r {| heap := tab_heap t; pending := Idle;
                          log := tab_log t |} with
    | (Undefined, _) => Datatypes.None
    | (_, w) =>
      Some {| tab_heap := heap w;
              tab_pending := tab_pending t ++ [pending w];
              tab_log := log w |}
    end
  | Deliver i ev =>
    match tab_pending t !! i with
    | Datatypes.None => Some t
    | Some p =>
      match aux.dispatch host ev {| heap := tab_heap t; pending := p;
                                    log := tab_log t |} with
      | (Undefined, _) => Datatypes.None
      | (_, w) =>
        Some {| tab_heap := heap w;
                tab_pending := <[i := pending w]> (tab_pending t);
                tab_log := log w |}
      end
    end
  end.

Fixpoint tab_run (host : Host) (acts : list TabAction) (t : Tab)
  : option Tab :=
  match acts with
  | [] => Some t
  | a :: acts' =>
    match tab_step host a t with
    | Some t' => tab_run host acts' t'
    | Datatypes.None => Datatypes.None
    end
  end.

(** The requests issued by a list of actions, in order. *)
Definition issued (acts : list TabAction) : list Request :=
  omap (fun a => match a with
                  | Issue r => Some r
                  | Deliver _ _ => Datatypes.None
                  end) acts.

(** The [meta] of the requests whose continuation slot is idle. *)
Fixpoint finished_metas (rs : list Request) (ps : list Pending)
  : list ptr :=
  match rs, ps with
  | r :: rs', Idle :: ps' => meta r :: finished_metas rs' ps'
  | _ :: rs', _ :: ps' => finished_metas rs' ps'
  | _, _ => []
  end.

(** The [meta] each callback call was given. *)
Definition callback_metas (l : list Event) : list ptr :=
  map (fun c : string_view * option chars * Error.t * ptr => snd c)
      (callbacks l).

(** What holds of a page between two actions, [rs] being the requests
    issued so far: every request has its slot; a pending slot keeps the
    [meta] of its request and a live handle to its callback; no two pending
    slots share a handle; and the callback calls made so far are those of
    the finished requests. *)
Definition tab_inv (rs : list Request) (t : Tab) : Prop :=
  List.length (tab_pending t) = List.length rs
  /\ (forall i p c,
        tab_pending t !! i = Some p -> closure_of p = Some c ->
        exists r, rs !! i = Some r
                  /\ c_meta c = meta r
                  /\ tab_heap t !! c_pcb c = Some (CallbackCopy (cb r)))
  /\ (forall i j p q c d,
        tab_pending t !! i = Some p -> tab_pending t !! j = Some q ->
        closure_of p = Some c -> closure_of q = Some d ->
        c_pcb c = c_pcb d -> i = j)
  /\ callback_metas (tab_log t) ≡ₚ finished_metas rs (tab_pending t).

(* ====================================================================== *)
(** * The helpers *)
(* ====================================================================== *)

Section Header.

Lemma format_02X_hex_pair (b : byte) : format_02X b = hex_pair b.
Proof. destruct b; reflexivity. Qed.

Lemma byte_of_hex_pair_hex_pair (b : byte) :
  byte_of_hex_pair (hex_pair b) = Some b.
Proof. destruct b; reflexivity. Qed.

Lemma hex_pair_inj (a b : byte) : hex_pair a = hex_pair b -> a = b.
Proof.
  intros E. apply (f_equal byte_of_hex_pair) in E.
  rewrite !byte_of_hex_pair_hex_pair in E. congruence.
Qed.

Lemma append_cons (c : ascii) (s t : string) :
  (String c s ++ t)%string = String c (s ++ t)%string.
Proof. reflexivity. Qed.

Lemma append_nil_r (s : string) : (s ++ "")%string = s.
Proof. induction s as [|c s IH]; [reflexivity|]. now rewrite append_cons, IH. Qed.

Lemma string_app_assoc (s t u : string) :
  ((s ++ t) ++ u = s ++ (t ++ u))%string.
Proof.
  induction s as [|c s IH]; [reflexivity|]. now rewrite !append_cons, IH.
Qed.

Lemma for_each_out (bytes : list byte) (out : string) :
  fold_left (fun out ch => (out ++ format_02X ch ++ " ")%string) bytes out
  = (out ++ spaced bytes)%string.
Proof.
  revert out. induction bytes as [|b bytes IH]; intros out; simpl.
  - now rewrite append_nil_r.
  - now rewrite IH, format_02X_hex_pair, !string_app_assoc.
Qed.

Lemma spaced_empty (bytes : list byte) :
  empty (spaced bytes) = match bytes with [] => true | _ => false end.
Proof. destruct bytes; reflexivity. Qed.

Lemma pop_back_spaced (bytes : list byte) :
  pop_back (spaced bytes) = hex_pairs bytes.
Proof.
  induction bytes as [|b bytes IH]; [reflexivity|].
  destruct bytes as [|b' bytes]; [reflexivity|].
  change (spaced (b :: b' :: bytes))
    with (hex_pair b ++ " " ++ spaced (b' :: bytes))%string.
  change (hex_pairs (b :: b' :: bytes))
    with (hex_pair b ++ " " ++ hex_pairs (b' :: bytes))%string.
  rewrite <- IH. reflexivity.
Qed.

(** The iterator range of the source is the clipped range. *)
Lemma range_clipped (img : chars) (pos n : N) :
  range img (N.min pos (chars_size img)) (N.min (pos + n) (chars_size img))
  = clipped img pos n.
Proof.
  unfold range, clipped, chars_size.
  destruct (N.le_gt_cases (N.of_nat (List.length img)) pos) as [Hge|Hlt].
  - rewrite !drop_ge by lia. now rewrite !take_nil.
  - rewrite (N.min_l pos) by lia.
    rewrite <- (take_ge (drop (N.to_nat pos) img)
                        (N.to_nat (N.of_nat (List.length img) - pos)))
      by (rewrite length_drop; lia).
    rewrite !take_take. f_equal. lia.
Qed.

Lemma GetImageHeader_eq (img : chars) (pos n : N) :
  GetImageHeader img pos n = Some (hex_pairs (clipped img pos n)).
Proof.
  unfold GetImageHeader.
  replace (N.min pos (chars_size img) <=? N.min (pos + n) (chars_size img))
    with true by (symmetry; apply N.leb_le; lia).
  rewrite range_clipped, for_each_out.
  change ("" ++ spaced (clipped img pos n))%string
    with (spaced (clipped img pos n)).
  rewrite spaced_empty.
  destruct (clipped img pos n) as [|b bytes] eqn:E; [reflexivity|].
  simpl negb. cbv iota. now rewrite pop_back_spaced.
Qed.

Lemma hex_pairs_cons (a b : byte) (l : list byte) :
  hex_pairs (a :: b :: l)
  = String (hex_digit_upper (Byte.to_N a / 16))
      (String (hex_digit_upper (Byte.to_N a mod 16))
         (String " " (hex_pairs (b :: l)))).
Proof. reflexivity. Qed.

Lemma hex_pairs_inj (l1 l2 : list byte) :
  hex_pairs l1 = hex_pairs l2 -> l1 = l2.
Proof.
  revert l2. induction l1 as [|a l1 IH]; intros [|b l2] E.
  - reflexivity.
  - destruct l2; discriminate E.
  - destruct l1; discriminate E.
  - destruct l1 as [|a' l1], l2 as [|b' l2].
    + now rewrite (hex_pair_inj _ _ E).
    + discriminate E.
    + discriminate E.
    + rewrite !hex_pairs_cons in E. injection E as E1 E2 E3.
      rewrite (IH (b' :: l2) E3). f_equal.
      apply hex_pair_inj. unfold hex_pair. congruence.
Qed.

Lemma length_clipped (img : chars) (pos n : N) :
  N.of_nat (List.length (clipped img pos n)) = N.min n (chars_size img - pos).
Proof.
  unfold clipped, chars_size. rewrite length_take, length_drop. lia.
Qed.

Lemma lookup_clipped (img : chars) (pos n : N) (i : nat) :
  (i < List.length (clipped img pos n))%nat ->
  nth_error (clipped img pos n) i = nth_error img (N.to_nat pos + i).
Proof.
  unfold clipped. intros Hi. rewrite length_take in Hi.
  rewrite nth_error_firstn, nth_error_skipn.
  destruct (Nat.ltb_spec i (N.to_nat n)); [reflexivity | lia].
Qed.

Lemma length_hex_pairs (bytes : list byte) :
  String.length (hex_pairs bytes) = (3 * List.length bytes - 1)%nat.
Proof.
  induction bytes as [|b bytes IH]; [reflexivity|].
  destruct bytes as [|b' bytes]; [reflexivity|].
  rewrite hex_pairs_cons. cbn [String.length]. rewrite IH.
  cbn [List.length]. lia.
Qed.

End Header.

(** The examples of the header's documentation and of the specification. *)
Example header_png :
  GetImageHeader [x89; x50; x4e; x47; x0d; x0a; x1a; x0a; x00; x00] 0 8
  = Some "89 50 4E 47 0D 0A 1A 0A".
Proof. reflexivity. Qed.

Example header_clip : GetImageHeader [x89; x50; x4e] 1 8 = Some "50 4E".
Proof. reflexivity. Qed.

Example header_past_end : GetImageHeader [x89; x50; x4e] 3 8 = Some "".
Proof. reflexivity. Qed.

Example format_webp :
  GetImageFormat [x52; x49; x46; x46; x10; x00; x00; x00; x57; x45; x42; x50]
  = Some Format.Webp.
Proof. reflexivity. Qed.

(** ** The helpers on addresses *)

Lemma seq_from (b k : nat) :
  seq b k = map (fun i => (b + i)%nat) (seq 0 k).
Proof.
  revert b. induction k as [|k IH]; intros b; [reflexivity|].
  cbn [seq map]. f_equal; [lia|].
  rewrite (IH (S b)), <- seq_shift, map_map. apply map_ext. intros; lia.
Qed.

(** A pointer range inside the view holds the characters of the view. *)
Lemma range_contents (mem : Flat.memory) (img : string_view) (b e : N) :
  b <= e -> e <= sv_size img ->
  Flat.range mem (sv_data img + b) (sv_data img + e)
  = range (Flat.contents mem img) b e.
Proof.
  intros BE ES. unfold Flat.contents, Flat.range, range.
  replace (sv_data img + sv_size img - sv_data img) with (sv_size img)
    by lia.
  replace (sv_data img + e - (sv_data img + b)) with (e - b) by lia.
  rewrite skipn_map, firstn_map, skipn_seq, take_seq.
  rewrite Nat.min_l by lia. cbn [Nat.add].
  rewrite (seq_from (N.to_nat b)), map_map. apply map_ext.
  intros i. f_equal. lia.
Qed.

Lemma contents_size (mem : Flat.memory) (img : string_view) :
  chars_size (Flat.contents mem img) = sv_size img.
Proof.
  unfold chars_size, Flat.contents, Flat.range.
  rewrite length_map, length_seq. lia.
Qed.

Lemma lookup_contents (mem : Flat.memory) (img : string_view) (i : nat) :
  N.of_nat i < sv_size img ->
  nth_error (Flat.contents mem img) i
  = Some (mem (sv_data img + N.of_nat i)).
Proof.
  intros L. unfold Flat.contents, Flat.range.
  rewrite nth_error_map, nth_error_seq.
  replace (sv_data img + sv_size img - sv_data img) with (sv_size img)
    by lia.
  destruct (Nat.ltb_spec i (N.to_nat (sv_size img))); [reflexivity|lia].
Qed.

(** Where no sum wraps the code reads the view by its contents. *)
Lemma GetImageHeader_in_range (bits : N) (mem : Flat.memory)
  (img : string_view) (pos n : N) :
  sv_data img + sv_size img < 2 ^ bits ->
  sv_data img + pos + n < 2 ^ bits ->
  Flat.GetImageHeader bits mem img pos n
  = GetImageHeader (Flat.contents mem img) pos n.
Proof.
  intros F W.
  unfold Flat.GetImageHeader, GetImageHeader, Flat.cbegin, Flat.cend,
    Flat.wrap.
  cbv zeta. rewrite contents_size.
  rewrite (N.mod_small (sv_data img + pos)) by lia.
  rewrite !N.mod_small by lia.
  replace (N.min (sv_data img + pos) (sv_data img + sv_size img))
    with (sv_data img + N.min pos (sv_size img)) by lia.
  replace (N.min (sv_data img + pos + n) (sv_data img + sv_size img))
    with (sv_data img + N.min (pos + n) (sv_size img)) by lia.
  rewrite range_contents by lia.
  replace (sv_data img + N.min pos (sv_size img)
           <=? sv_data img + N.min (pos + n) (sv_size img))
    with (N.min pos (sv_size img) <=? N.min (pos + n) (sv_size img));
    [reflexivity|].
  destruct (N.leb_spec (N.min pos (sv_size img))
                       (N.min (pos + n) (sv_size img)));
    destruct (N.leb_spec (sv_data img + N.min pos (sv_size img))
                         (sv_data img + N.min (pos + n) (sv_size img)));
    try reflexivity; lia.
Qed.

(** X16.  The two readings of [GetImageFormat] agree: for every view that
    lies in the address space with the twelve bytes the test may ask for
    below [2 ^ bits], the function run on addresses reports what the
    function on the characters of the view reports, whatever the memory
    holds around the view. *)
Theorem GetImageFormat_of_a_view_is_that_of_its_contents (bits : N)
  (mem : Flat.memory) (img : string_view) :
  sv_data img + sv_size img < 2 ^ bits ->
  sv_data img + 12 < 2 ^ bits ->
  Flat.GetImageFormat bits mem img = GetImageFormat (Flat.contents mem img).
Proof.
  intros F W. unfold Flat.GetImageFormat, GetImageFormat.
  now rewrite !GetImageHeader_in_range by lia.
Qed.

Lemma GetImageFormat_of_a_view_is_that_of_its_contents_witness :
  Flat.GetImageFormat 32 sample_memory sample_view
  = GetImageFormat [x89; x50; x4e].
Proof.
  apply (GetImageFormat_of_a_view_is_that_of_its_contents
           32 sample_memory sample_view); vm_compute; reflexivity.
Defined.

(** A length of [SIZE_MAX] from inside the view brings the end of the range
    to one byte before its start. *)
Lemma GetImageHeader_to_SIZE_MAX (bits : N) (mem : Flat.memory)
  (img : string_view) (pos : N) :
  sv_data img + sv_size img < 2 ^ bits ->
  0 < pos -> pos <= sv_size img ->
  Flat.GetImageHeader bits mem img pos (Flat.SIZE_MAX bits)
  = Datatypes.None.
Proof.
  intros F P S.
  unfold Flat.GetImageHeader, Flat.cbegin, Flat.cend, Flat.wrap,
    Flat.SIZE_MAX.
  cbv zeta. rewrite (N.mod_small (sv_data img + pos)) by lia.
  rewrite (N.mod_small (sv_data img + sv_size img)) by lia.
  replace (sv_data img + pos + (2 ^ bits - 1))
    with (sv_data img + pos - 1 + 1 * 2 ^ bits) by lia.
  rewrite N.Div0.mod_add, N.mod_small by lia.
  destruct (N.leb_spec (N.min (sv_data img + pos)
                              (sv_data img + sv_size img))
                       (N.min (sv_data img + pos - 1)
                              (sv_data img + sv_size img)));
    [lia | reflexivity].
Qed.

(** C5.  The code does not clip for every [pos] and [n]: the sums
    [img.cbegin() + pos] and [img.cbegin() + pos + n] are sums of a pointer
    and a [std::size_t] and wrap.  For every view that lies in the address
    space, a length of [SIZE_MAX] (the value of [std::string::npos]) from
    any [pos] in [1 .. img.size()] brings [end] below [begin] and the
    function's own [assert(begin <= end)] fails.  On the three bytes
    [89 50 4E], with 64-bit and with 32-bit addresses alike,
    [GetImageHeader(img, 1, SIZE_MAX)] fails that assertion where the claim
    asks for [50 4E], and [GetImageHeader(img, SIZE_MAX, 8)] starts one
    byte before the view and returns four pairs where the claim asks for
    the empty string. *)
Theorem GetImageHeader_wraps_past_the_view :
  (forall bits mem img pos,
     sv_data img + sv_size img < 2 ^ bits ->
     0 < pos -> pos <= sv_size img ->
     Flat.GetImageHeader bits mem img pos (Flat.SIZE_MAX bits)
     = Datatypes.None)
  /\ Flat.contents sample_memory sample_view = [x89; x50; x4e]
  /\ hex_pairs (clipped [x89; x50; x4e] 1 (Flat.SIZE_MAX 64)) = "50 4E"
  /\ Flat.GetImageHeader 64 sample_memory sample_view 1 (Flat.SIZE_MAX 64)
     = Datatypes.None
  /\ Flat.GetImageHeader 32 sample_memory sample_view 1 (Flat.SIZE_MAX 32)
     = Datatypes.None
  /\ hex_pairs (clipped [x89; x50; x4e] (Flat.SIZE_MAX 64) 8) = ""
  /\ Flat.GetImageHeader 64 sample_memory sample_view (Flat.SIZE_MAX 64) 8
     = Some "AF 89 50 4E"
  /\ Flat.GetImageHeader 32 sample_memory sample_view (Flat.SIZE_MAX 32) 8
     = Some "AF 89 50 4E".
Proof.
  split; [exact GetImageHeader_to_SIZE_MAX|].
  split; [reflexivity|].
  split.
  { unfold clipped. change (N.to_nat 1) with 1%nat. cbn [skipn].
    rewrite firstn_all2; [reflexivity|].
    assert (2 <= Flat.SIZE_MAX 64) by (vm_compute; discriminate).
    cbn [List.length]. lia. }
  split; [vm_compute; reflexivity|].
  split; [vm_compute; reflexivity|].
  split.
  { unfold clipped. rewrite skipn_all2; [now rewrite firstn_nil|].
    assert (3 <= Flat.SIZE_MAX 64) by (vm_compute; discriminate).
    cbn [List.length]. lia. }
  split; vm_compute; reflexivity.
Qed.

(** X15.  Where no address sum wraps, that is for every view that lies in
    the address space and every [pos] and [n] with
    [img.data() + pos + n] below [2 ^ bits], [GetImageHeader] does return
    the bytes of [[pos, pos + n)] that lie inside the view, each as its
    upper-case two-digit hex pair, the pairs separated by exactly one space
    with no space before the first or after the last; there are exactly
    [min n (img.size() - pos)] pairs, those of the bytes at the addresses
    [img.data() + pos + i], and a [pos] at or past the end gives the empty
    string. *)
Theorem GetImageHeader_clips_where_no_sum_wraps (bits : N)
  (mem : Flat.memory) (img : string_view) (pos n : N) :
  sv_data img + sv_size img < 2 ^ bits ->
  sv_data img + pos + n < 2 ^ bits ->
  Flat.GetImageHeader bits mem img pos n
  = Some (hex_pairs (clipped (Flat.contents mem img) pos n))
  /\ N.of_nat (List.length (clipped (Flat.contents mem img) pos n))
     = N.min n (sv_size img - pos)
  /\ (forall i : nat,
        nth_error (clipped (Flat.contents mem img) pos n) i
        = if (N.of_nat i <? N.min n (sv_size img - pos))
          then Some (mem (sv_data img + pos + N.of_nat i))
          else Datatypes.None)
  /\ (forall b : byte,
        format_02X b = hex_pair b /\ byte_of_hex_pair (hex_pair b) = Some b)
  /\ String.length (hex_pairs (clipped (Flat.contents mem img) pos n))
     = (3 * List.length (clipped (Flat.contents mem img) pos n) - 1)%nat
  /\ (sv_size img <= pos ->
      Flat.GetImageHeader bits mem img pos n = Some "").
Proof.
  intros F W. rewrite (GetImageHeader_in_range bits mem img pos n F W).
  pose proof (length_clipped (Flat.contents mem img) pos n) as L.
  rewrite contents_size in L.
  split; [apply GetImageHeader_eq|].
  split; [exact L|].
  split.
  { intros i.
    destruct (N.ltb_spec (N.of_nat i) (N.min n (sv_size img - pos))).
    - rewrite lookup_clipped by lia.
      rewrite lookup_contents by lia. do 2 f_equal. lia.
    - apply nth_error_None. lia. }
  split.
  { intros b. split; [apply format_02X_hex_pair|].
    apply byte_of_hex_pair_hex_pair. }
  split; [apply length_hex_pairs|].
  intros E. rewrite GetImageHeader_eq. unfold clipped.
  rewrite skipn_all2; [now rewrite firstn_nil|].
  pose proof (contents_size mem img) as C. unfold chars_size in C. lia.
Qed.

Lemma GetImageHeader_clips_where_no_sum_wraps_witness :
  Flat.GetImageHeader 64 sample_memory sample_view 1 8 = Some "50 4E"
  /\ Flat.GetImageHeader 32 sample_memory sample_view 3 8 = Some "".
Proof.
  split.
  - destruct (GetImageHeader_clips_where_no_sum_wraps
                64 sample_memory sample_view 1 8) as (E & _);
      [vm_compute; reflexivity | vm_compute; reflexivity | exact E].
  - destruct (GetImageHeader_clips_where_no_sum_wraps
                32 sample_memory sample_view 3 8) as (_ & _ & _ & _ & _ & E);
      [vm_compute; reflexivity | vm_compute; reflexivity |].
    apply E. vm_compute. discriminate.
Defined.

Section Sniffing.

Lemma clipped_magic_at (img : chars) (pos n : N) (magic : list byte) :
  N.to_nat n = List.length magic ->
  clipped img pos n = magic <-> magic_at img (N.to_nat pos) magic.
Proof. intros E. unfold clipped, magic_at. now rewrite E. Qed.

(** A comparison of a header with a signature string compares bytes. *)
Lemma header_eqb (img : chars) (pos n : N) (magic : list byte) :
  N.to_nat n = List.length magic ->
  exists h, GetImageHeader img pos n = Some h
    /\ (String.eqb h (hex_pairs magic) = true
        <-> magic_at img (N.to_nat pos) magic).
Proof.
  intros E. eexists. split; [apply GetImageHeader_eq|].
  rewrite String.eqb_eq, <- (clipped_magic_at img pos n magic E).
  split; [apply hex_pairs_inj | congruence].
Qed.

(** A signature at offset 0 fixes every shorter prefix. *)
Lemma magic_at_0_prefix (img : chars) (magic : list byte) (k : nat) :
  magic_at img 0 magic -> (k <= List.length magic)%nat ->
  firstn k img = firstn k magic.
Proof.
  unfold magic_at. intros E Hk.
  transitivity (firstn k (firstn (List.length magic) (skipn 0 img)));
    [|now rewrite E].
  rewrite drop_0, take_take. f_equal. lia.
Qed.

Lemma png_not_jpeg (img : chars) :
  magic_at img 0 png_magic -> ~ magic_at img 0 jpeg_magic.
Proof.
  intros P J. apply (magic_at_0_prefix _ _ 1) in P; [|simpl; lia].
  apply (magic_at_0_prefix _ _ 1) in J; [|simpl; lia].
  rewrite P in J. discriminate J.
Qed.

Lemma png_not_riff (img : chars) :
  magic_at img 0 png_magic -> ~ magic_at img 0 riff_magic.
Proof.
  intros P J. apply (magic_at_0_prefix _ _ 1) in P; [|simpl; lia].
  apply (magic_at_0_prefix _ _ 1) in J; [|simpl; lia].
  rewrite P in J. discriminate J.
Qed.

Lemma jpeg_not_riff (img : chars) :
  magic_at img 0 jpeg_magic -> ~ magic_at img 0 riff_magic.
Proof.
  intros P J. apply (magic_at_0_prefix _ _ 1) in P; [|simpl; lia].
  apply (magic_at_0_prefix _ _ 1) in J; [|simpl; lia].
  rewrite P in J. discriminate J.
Qed.

Lemma GetImageFormat_sniffed (img : chars) :
  exists fmt, GetImageFormat img = Some fmt /\ sniffed img fmt.
Proof.
  unfold GetImageFormat.
  destruct (header_eqb img 0 8 png_magic eq_refl) as (h8 & -> & H8).
  destruct (header_eqb img 0 2 jpeg_magic eq_refl) as (h2 & -> & H2).
  destruct (header_eqb img 0 4 riff_magic eq_refl) as (h4 & -> & H4).
  destruct (header_eqb img 8 4 webp_magic eq_refl) as (w4 & -> & W4).
  change (hex_pairs png_magic) with png_sig in H8.
  change (hex_pairs jpeg_magic) with jpeg_sig in H2.
  change (hex_pairs riff_magic) with riff_sig in H4.
  change (hex_pairs webp_magic) with webp_sig in W4.
  change (N.to_nat 0) with 0%nat in *. change (N.to_nat 8) with 8%nat in *.
  destruct (String.eqb h8 png_sig).
  { eexists; split; [reflexivity|]. constructor. now apply H8. }
  assert (~ magic_at img 0 png_magic) by (rewrite <- H8; discriminate).
  destruct (String.eqb h2 jpeg_sig).
  { eexists; split; [reflexivity|]. constructor; [assumption|now apply H2]. }
  assert (~ magic_at img 0 jpeg_magic) by (rewrite <- H2; discriminate).
  destruct (String.eqb h4 riff_sig).
  - destruct (String.eqb w4 webp_sig).
    + eexists; split; [reflexivity|].
      constructor; [assumption|assumption|now apply H4|now apply W4].
    + eexists; split; [reflexivity|].
      apply sniffed_unknown; [assumption|assumption|].
      intros [_ W]. apply W4 in W. discriminate W.
  - eexists; split; [reflexivity|].
    apply sniffed_unknown; [assumption|assumption|].
    intros [R _]. apply H4 in R. discriminate R.
Qed.

End Sniffing.

(** C6.  For every buffer, [GetImageFormat] returns [Png] iff the 8-byte PNG
    magic is at offset 0, [Jpeg] iff the 2-byte JPEG magic is at offset 0,
    [Webp] iff "RIFF" is at offset 0 and "WEBP" at offset 8, and [Unknown]
    iff none of these holds; the empty buffer is [Unknown]. *)
Theorem GetImageFormat_signatures (img : chars) :
  (GetImageFormat img = Some Format.Png <-> magic_at img 0 png_magic)
  /\ (GetImageFormat img = Some Format.Jpeg <-> magic_at img 0 jpeg_magic)
  /\ (GetImageFormat img = Some Format.Webp
      <-> magic_at img 0 riff_magic /\ magic_at img 8 webp_magic)
  /\ (GetImageFormat img = Some Format.Unknown
      <-> ~ magic_at img 0 png_magic /\ ~ magic_at img 0 jpeg_magic
          /\ ~ (magic_at img 0 riff_magic /\ magic_at img 8 webp_magic))
  /\ GetImageFormat [] = Some Format.Unknown.
Proof.
  destruct (GetImageFormat_sniffed img) as (fmt & -> & S).
  pose proof (png_not_jpeg img) as PJ.
  pose proof (png_not_riff img) as PR.
  pose proof (jpeg_not_riff img) as JR.
  split; [|split; [|split; [|split; [|reflexivity]]]];
    (split; [intros E; injection E as ->; inversion S; tauto |]);
    intros M; f_equal; destruct S; try reflexivity; tauto.
Qed.

Section FirstTwelve.

Lemma clipped_prefix (a b : chars) (k : nat) (pos n : N) :
  firstn k a = firstn k b -> (N.to_nat pos + N.to_nat n <= k)%nat ->
  clipped a pos n = clipped b pos n.
Proof.
  intros E Hk. unfold clipped. rewrite !take_drop_commute.
  replace (firstn (N.to_nat pos + N.to_nat n) a)
    with (firstn (N.to_nat pos + N.to_nat n) (firstn k a))
    by (rewrite take_take; f_equal; lia).
  rewrite E, take_take. do 2 f_equal. lia.
Qed.

Lemma GetImageHeader_prefix (a b : chars) (k : nat) (pos n : N) :
  firstn k a = firstn k b -> (N.to_nat pos + N.to_nat n <= k)%nat ->
  GetImageHeader a pos n = GetImageHeader b pos n.
Proof.
  intros E Hk. now rewrite !GetImageHeader_eq, (clipped_prefix a b k).
Qed.

Lemma GetImageFormat_prefix (a b : chars) :
  firstn 12 a = firstn 12 b -> GetImageFormat a = GetImageFormat b.
Proof.
  intros E. unfold GetImageFormat.
  rewrite (GetImageHeader_prefix a b 12 0 8 E) by (simpl; lia).
  rewrite (GetImageHeader_prefix a b 12 0 2 E) by (simpl; lia).
  rewrite (GetImageHeader_prefix a b 12 0 4 E) by (simpl; lia).
  rewrite (GetImageHeader_prefix a b 12 8 4 E) by (simpl; lia).
  reflexivity.
Qed.

End FirstTwelve.

(** C10.  Two buffers of at least 12 bytes each that agree on their first
    12 bytes have the same format: [GetImageFormat] reads offsets 0 to 11
    only. *)
Theorem GetImageFormat_first_12_bytes (a b : chars) :
  (12 <= List.length a)%nat -> (12 <= List.length b)%nat ->
  firstn 12 a = firstn 12 b ->
  GetImageFormat a = GetImageFormat b.
Proof. intros _ _ E. now apply GetImageFormat_prefix. Qed.

Lemma GetImageFormat_first_12_bytes_witness :
  GetImageFormat
    [x52; x49; x46; x46; x24; x00; x00; x00; x57; x45; x42; x50; x56; x50]
  = GetImageFormat
    [x52; x49; x46; x46; x24; x00; x00; x00; x57; x45; x42; x50; x00].
Proof.
  apply (GetImageFormat_first_12_bytes
           [x52; x49; x46; x46; x24; x00; x00; x00; x57; x45; x42; x50;
            x56; x50]
           [x52; x49; x46; x46; x24; x00; x00; x00; x57; x45; x42; x50;
            x00]).
  - simpl; lia.
  - simpl; lia.
  - reflexivity.
Defined.

(* ====================================================================== *)
(** * The callback handle and [ExecCb] *)
(* ====================================================================== *)

(** Case analysis on how the callback completes. *)
Ltac case_completion :=
  match goal with
  | |- context [match ?k with Returns => _ | Throws => _ end] => destruct k
  end.

Section Heap.

Lemma fresh_addr_fresh (h : gmap N cell) :
  fresh_addr h ∉ ({[nullptr]} ∪ dom h : gset N).
Proof. unfold fresh_addr. apply (is_fresh (C:=gset N)). Qed.

Lemma fresh_addr_not_null (h : gmap N cell) : fresh_addr h <> nullptr.
Proof. pose proof (fresh_addr_fresh h). set_solver. Qed.

Lemma fresh_addr_free (h : gmap N cell) : h !! fresh_addr h = Datatypes.None.
Proof. apply not_elem_of_dom. pose proof (fresh_addr_fresh h). set_solver. Qed.

Lemma view_of_fresh (h : gmap N cell) (n : N) :
  view_of (fresh_addr h) n
  = if 0 <? n then {| sv_data := fresh_addr h; sv_size := n |}
    else string_view_default.
Proof.
  unfold view_of. pose proof (fresh_addr_not_null h) as F.
  destruct (N.eqb_spec (fresh_addr h) nullptr); [contradiction|reflexivity].
Qed.

(** A view over a block that holds exactly [n] bytes shows these bytes. *)
Lemma view_chars_block (h : gmap N cell) (p : ptr) (bytes : chars) :
  p <> nullptr ->
  h !! p = Some (Block bytes) ->
  view_chars h (view_of p (chars_size bytes)) = Some bytes.
Proof.
  intros P L. unfold view_of, view_chars.
  destruct (N.eqb_spec p nullptr) as [|_]; [contradiction|].
  cbn [negb andb].
  destruct (N.ltb_spec 0 (chars_size bytes)) as [C|C]; cbn [sv_size sv_data].
  - destruct (N.eqb_spec (chars_size bytes) 0); [lia|].
    rewrite L, N.leb_refl. unfold chars_size.
    now rewrite Nat2N.id, firstn_all.
  - cbn. destruct bytes as [|b bytes]; [reflexivity|].
    unfold chars_size in C. simpl in C. lia.
Qed.

End Heap.

Section Transitions.

(** [ExecCb] on a live handle: the callback is called once, with the view
    [view_of data size]; the handle is deleted after a callback that
    returns. *)
Lemma ExecCb_live (w : World) (pcb data : ptr) (size : N) (err : Error.t)
  (meta : ptr) (cb : Callback) :
  heap w !! pcb = Some (CallbackCopy cb) ->
  aux.ExecCb pcb data size err meta w
  = let img := view_of data size in
    let seen := view_chars (heap w) img in
    match cb img seen err meta with
    | Returns =>
      (Normal tt,
       {| heap := delete pcb (heap w); pending := pending w;
          log := log w ++ [EvCallback img seen err meta; EvDelete pcb] |})
    | Throws =>
      (Exception,
       {| heap := heap w; pending := pending w;
          log := log w ++ [EvCallback img seen err meta] |})
    end.
Proof.
  intros L. unfold aux.ExecCb. rewrite L.
  replace (if negb (data =? nullptr) && (0 <? size)
           then call cb {| sv_data := data; sv_size := size |} err meta
           else call cb string_view_default err meta)
    with (call cb (view_of data size) err meta)
    by (unfold view_of; now destruct (negb (data =? nullptr) && (0 <? size))).
  unfold bind, call, emit. cbn.
  destruct (cb _ _ err meta); [|reflexivity].
  unfold delete_Callback, bind, set_heap, emit. cbn. rewrite L.
  now rewrite <- app_assoc.
Qed.

Lemma of_code_code (err : Error.t) : Error.of_code (Error.code err) = Some err.
Proof. now destruct err. Qed.

Lemma ccall_ExecCb_live (w : World) (pcb data : ptr) (size : N)
  (err : Error.t) (meta : ptr) (cb : Callback) :
  heap w !! pcb = Some (CallbackCopy cb) ->
  aux.ccall_ExecCb pcb data size (Error.code err) meta w
  = let img := view_of data size in
    let seen := view_chars (heap w) img in
    match cb img seen err meta with
    | Returns =>
      (Normal tt,
       {| heap := delete pcb (heap w); pending := pending w;
          log := log w ++ [EvExecCb pcb data size err meta;
                           EvCallback img seen err meta; EvDelete pcb] |})
    | Throws =>
      (Exception,
       {| heap := heap w; pending := pending w;
          log := log w ++ [EvExecCb pcb data size err meta;
                           EvCallback img seen err meta] |})
    end.
Proof.
  intros L. unfold aux.ccall_ExecCb. rewrite of_code_code. unfold bind, emit.
  rewrite (ExecCb_live _ pcb data size err meta cb) by exact L. cbn.
  destruct (cb _ _ err meta); now rewrite <- app_assoc.
Qed.

(** A failure edge: no buffer, the default view. *)
Lemma failed_live (w : World) (pcb meta : ptr) (err : Error.t)
  (cb : Callback) :
  heap w !! pcb = Some (CallbackCopy cb) ->
  aux.failed pcb meta (Error.code err) w
  = match cb string_view_default (Some []) err meta with
    | Returns =>
      (Normal tt,
       {| heap := delete pcb (heap w); pending := pending w;
          log := log w ++ [EvExecCb pcb 0 0 err meta;
                           EvCallback string_view_default (Some []) err meta;
                           EvDelete pcb] |})
    | Throws =>
      (Exception,
       {| heap := heap w; pending := pending w;
          log := log w ++ [EvExecCb pcb 0 0 err meta;
                           EvCallback string_view_default (Some []) err
                                      meta] |})
    end.
Proof.
  intros L. unfold aux.failed.
  now rewrite (ccall_ExecCb_live _ pcb 0 0 err meta cb) by exact L.
Qed.

(** The success edge: a buffer of exactly the byte count, the callback on
    a view over it, and the buffer freed whatever the callback did. *)
Lemma loadImage_live (w : World) (pcb meta : ptr) (buf : chars)
  (cb : Callback) :
  heap w !! pcb = Some (CallbackCopy cb) ->
  aux.loadImage pcb meta buf w
  = let on_heap := fresh_addr (heap w) in
    let n := chars_size buf in
    let img := view_of on_heap n in
    match cb img (Some buf) Error.None meta with
    | Returns =>
      (Normal tt,
       {| heap := delete pcb (heap w); pending := pending w;
          log := log w ++ [EvMalloc on_heap n;
                           EvExecCb pcb on_heap n Error.None meta;
                           EvCallback img (Some buf) Error.None meta;
                           EvDelete pcb; EvFree on_heap] |})
    | Throws =>
      (Normal tt,
       {| heap := heap w; pending := pending w;
          log := log w ++ [EvMalloc on_heap n;
                           EvExecCb pcb on_heap n Error.None meta;
                           EvCallback img (Some buf) Error.None meta;
                           EvAlert; EvFree on_heap] |})
    end.
Proof.
  intros L. pose proof (fresh_addr_free (heap w)) as F.
  pose proof (fresh_addr_not_null (heap w)) as NN.
  assert (fresh_addr (heap w) <> pcb) as NE by congruence.
  unfold aux.loadImage, _malloc, bind, set_heap, emit, ret.
  cbn. unfold writeArrayToMemory, set_heap. cbn.
  rewrite lookup_insert_eq, insert_insert_eq.
  replace (buf ++ skipn (List.length buf)
             (repeat x00 (N.to_nat (chars_size buf))))%list
    with buf
    by (unfold chars_size; rewrite Nat2N.id, drop_ge, app_nil_r;
        [reflexivity | now rewrite repeat_length]).
  unfold try_catch_finally, try_catch.
  unfold bind, emit. cbn [heap pending log].
  rewrite (ExecCb_live _ pcb _ _ Error.None meta cb)
    by (cbn; now rewrite lookup_insert_ne).
  cbn [heap pending log].
  rewrite (view_chars_block _ _ buf NN) by apply lookup_insert_eq.
  destruct (cb _ (Some buf) Error.None meta).
  - unfold _free, bind, set_heap, emit. cbn.
    rewrite lookup_delete_ne, lookup_insert_eq by congruence. cbn.
    rewrite <- !app_assoc. cbn.
    rewrite delete_delete, delete_insert_id by exact F.
    reflexivity.
  - cbn. unfold _free, bind, set_heap, emit. cbn.
    rewrite lookup_insert_eq. cbn.
    rewrite <- !app_assoc. cbn.
    rewrite delete_insert_id by exact F. reflexivity.
Qed.

End Transitions.

Section Drawing.
Variable host : Host.
Variable data : chars.
Variables pcb meta : ptr.
Variable format : string.
Variables quality x y width height : number.

Lemma setCanvasSize_canvas_for (canvas : Canvas) (img : Image) :
  aux.setCanvasSize width height canvas width height img
  = canvas_for width height img.
Proof. reflexivity. Qed.

(** [drawSvg], branch by branch. *)
Lemma drawSvg_eq (img : Image) (fmt : string) (w : World) :
  aux.drawSvg host data pcb meta format quality x y width height img fmt w
  = let canvas := canvas_for width height img in
    let scaled := scaling_for width height in
    if getContext_2d host canvas then
      if drawImage_throws host canvas img x y scaled then
        aux.failed pcb meta aux.RasterError.CanvasDrawingFailed
          (logged [EvCreateCanvas; EvDrawImage canvas img x y scaled] w)
      else if toBlob_throws host canvas fmt quality then
        aux.failed pcb meta aux.RasterError.CanvasDrawingFailed
          (logged [EvCreateCanvas; EvDrawImage canvas img x y scaled;
                   EvToBlob canvas fmt quality] w)
      else
        (Normal tt,
         {| heap := heap w;
            pending :=
              BlobPending
                (aux.closure data pcb meta format quality x y width height)
                canvas;
            log := log w ++ [EvCreateCanvas;
                             EvDrawImage canvas img x y scaled;
                             EvToBlob canvas fmt quality] |})
    else
      aux.failed pcb meta aux.RasterError.CanvasDrawingFailed
                 (logged [EvCreateCanvas] w).
Proof.
  unfold aux.drawSvg, aux.createElement_canvas, bind, emit, ret. cbn.
  rewrite setCanvasSize_canvas_for.
  unfold try_catch, bind, aux.drawImage, aux.toBlob, scaling_for, logged.
  destruct (truthy width && truthy height);
    destruct (getContext_2d host (canvas_for width height img)); cbn;
    try reflexivity;
    unfold bind, emit, throw, ret, set_pending; cbn;
    repeat (match goal with
            | |- context [drawImage_throws ?a ?b ?c ?d ?e ?f] =>
              destruct (drawImage_throws a b c d e f)
            | |- context [toBlob_throws ?a ?b ?c ?d] =>
              destruct (toBlob_throws a b c d)
            end; cbn);
    rewrite <- ?app_assoc; reflexivity.
Qed.

(** [svgToDataUri] and the main part of the [EM_JS] function. *)
Lemma svgToDataUri_eq (w : World) :
  aux.svgToDataUri host data pcb meta w
  = let svg := aux.UTF8ToString data in
    match encodeURIComponent host svg with
    | Some enc =>
      (Normal (Some ("data:image/svg+xml;charset=utf8," ++ enc)%string),
       logged [EvEncodeURIComponent svg] w)
    | Datatypes.None =>
      match aux.failed pcb meta aux.RasterError.UriEncodingFailed
                       (logged [EvEncodeURIComponent svg] w) with
      | (Normal _, w') => (Normal Datatypes.None, w')
      | (Exception, w') => (Exception, w')
      | (Undefined, w') => (Undefined, w')
      end
    end.
Proof.
  unfold aux.svgToDataUri, try_catch, bind, emit, ret, throw, logged.
  destruct (encodeURIComponent host (aux.UTF8ToString data)); reflexivity.
Qed.

Lemma SvgToImage_eq (w : World) :
  aux.SvgToImage host data pcb meta format quality x y width height w
  = let svg := aux.UTF8ToString data in
    match encodeURIComponent host svg with
    | Some enc =>
      let uri := ("data:image/svg+xml;charset=utf8," ++ enc)%string in
      (Normal tt,
       {| heap := heap w;
          pending :=
            ImgPending
              (aux.closure data pcb meta format quality x y width height)
              uri;
          log := log w ++ [EvEncodeURIComponent svg; EvImgSrc uri] |})
    | Datatypes.None =>
      match aux.failed pcb meta aux.RasterError.UriEncodingFailed
                       (logged [EvEncodeURIComponent svg] w) with
      | (Normal _, w') => (Normal tt, w')
      | (Exception, w') => (Exception, w')
      | (Undefined, w') => (Undefined, w')
      end
    end.
Proof.
  unfold aux.SvgToImage, bind. rewrite svgToDataUri_eq. cbv zeta.
  destruct (encodeURIComponent host (aux.UTF8ToString data)).
  - unfold emit, set_pending, ret, logged. cbn [heap pending log].
    now rewrite <- app_assoc.
  - destruct (aux.failed pcb meta aux.RasterError.UriEncodingFailed _) as [[] ?];
      reflexivity.
Qed.

End Drawing.

(* ====================================================================== *)
(** * A request, from its issue to its terminal edge *)
(* ====================================================================== *)

(** An event nothing waits for changes nothing. *)
Lemma dispatch_not_awaited (host : Host) (ev : HostEvent) (w : World) :
  awaits (pending w) ev = false -> aux.dispatch host ev w = (Normal tt, w).
Proof.
  unfold aux.dispatch. destruct (pending w), ev; try discriminate; reflexivity.
Qed.

Section Phases.
Variable host : Host.
Variable r : Request.
Variable h : gmap N cell.

Lemma in_flight_handle :
  in_flight r h !! handle h = Some (CallbackCopy (cb r)).
Proof. apply lookup_insert_eq. Qed.

Lemma delete_in_flight : delete (handle h) (in_flight r h) = h.
Proof. apply delete_insert_id, fresh_addr_free. Qed.

(** A failure edge taken while the handle lives ends the request. *)
Lemma failed_phase (pre : list Event) (err : Error.t) :
  fails_after r h pre err ->
  exists o w',
    aux.failed (handle h) (meta r) (Error.code err)
               {| heap := in_flight r h; pending := Idle; log := pre |}
    = (o, w')
    /\ o <> Undefined /\ phase r h w' /\ pending w' = Idle.
Proof.
  intros F.
  rewrite (failed_live _ _ _ _ (cb r)) by apply in_flight_handle.
  cbn [heap pending log].
  destruct (cb r string_view_default (Some []) err (meta r)) eqn:K;
    eexists _, _; (split; [reflexivity|]); (split; [discriminate|]);
    (split; [|reflexivity]).
  - rewrite delete_in_flight.
    apply (phase_failed r h pre err Returns); [exact F | now rewrite K].
  - apply (phase_failed r h pre err Throws); [exact F | now rewrite K].
Qed.

Lemma has_input_checked (s : chars) :
  has_input s = true ->
  match s with [] => true | c :: _ => Byte.eqb c x00 end = false.
Proof. destruct s; [discriminate|]. apply negb_true_iff. Qed.

(** Issuing a request with input leaves it loading, or failed. *)
Lemma issue_phase :
  has_input (svg r) = true ->
  exists o w, issue host r (start h) = (o, w)
              /\ o <> Undefined /\ phase r h w.
Proof.
  intros V. unfold issue, SvgToImage.
  rewrite (has_input_checked _ V).
  unfold bind, new_Callback, bind, set_heap, emit, ret, start.
  cbn [heap pending log app].
  rewrite SvgToImage_eq. cbv zeta. cbn [heap pending log app].
  destruct (encodeURIComponent host (aux.UTF8ToString (svg r)))
    as [enc|] eqn:E.
  - eexists _, _. split; [reflexivity|]. split; [discriminate|].
    apply (phase_loading r h).
  - destruct (failed_phase _ _ (fails_encoding r h))
      as (o & w' & F & NU & P & _).
    unfold logged. cbn [heap pending log app].
    change (fresh_addr h) with (handle h).
    change (<[handle h:=CallbackCopy (cb r)]> h) with (in_flight r h).
    change [EvNew (handle h);
            EvEncodeURIComponent (aux.UTF8ToString (svg r))]
      with (log_encoding r h).
    change aux.RasterError.UriEncodingFailed
      with (Error.code Error.UriEncodingFailed).
    rewrite F.
    destruct o; eexists _, _; (split; [reflexivity|]);
      (split; [|exact P]); try discriminate; contradiction.
Qed.

Ltac take_failure F0 :=
  let o := fresh "o" in
  let w' := fresh "w'" in
  let F := fresh "F" in
  let NU := fresh "NU" in
  let P := fresh "P" in
  let I := fresh "I" in
  destruct (failed_phase _ _ F0) as (o & w' & F & NU & P & I);
  exists o, w'; split; [exact F|]; split; [exact NU|]; split; [exact P|];
  rewrite I; cbn; lia.

(** An awaited event moves the request one phase on. *)
Lemma dispatch_phase (ev : HostEvent) (w : World) :
  phase r h w -> awaits (pending w) ev = true ->
  exists o w',
    aux.dispatch host ev w = (o, w')
    /\ o <> Undefined /\ phase r h w'
    /\ (steps_left (pending w') < steps_left (pending w))%nat.
Proof.
  intros P A. destruct P as [uri|uri canvas img scaled
                             |uri canvas img scaled blob| |];
    destruct ev as [iw ih| |blob'| |]; try discriminate A; clear A;
    unfold aux.dispatch; cbn [pending];
    unfold bind at 1, set_pending; cbn [heap pending log];
    unfold env, aux.closure;
    cbn [c_data c_pcb c_meta c_format c_quality c_x c_y c_width c_height].
  - (* Loading, onload *)
    rewrite drawSvg_eq. cbv zeta.
    set (img := {| img_src := uri; img_width := iw; img_height := ih |}).
    set (canvas := canvas_for (width r) (height r) img).
    set (scaled := scaling_for (width r) (height r)).
    destruct (getContext_2d host canvas);
      [destruct (drawImage_throws host canvas img (x r) (y r) scaled);
       [|destruct (toBlob_throws host canvas (aux.sformat (format r))
                                 (quality r))]|].
    + take_failure (fails_drawing r h uri canvas img scaled).
    + take_failure (fails_toBlob r h uri canvas img scaled).
    + eexists _, _. split; [reflexivity|]. split; [discriminate|].
      split; [apply (phase_exporting r h uri canvas img scaled)|].
      cbn; lia.
    + take_failure (fails_context r h uri).
  - (* Loading, onerror *)
    take_failure (fails_loading r h uri).
  - (* Exporting, the blob callback *)
    unfold aux.processBlob. destruct blob' as [bytes|].
    + eexists _, _. split; [reflexivity|]. split; [discriminate|].
      split; [apply (phase_reading r h uri canvas img scaled bytes)|].
      cbn; lia.
    + take_failure (fails_exporting r h uri canvas img scaled).
  - (* Reading, fulfilled *)
    rewrite (loadImage_live _ _ _ _ (cb r)) by apply in_flight_handle.
    cbv zeta. cbn [heap pending log].
    match goal with
    | |- context [match ?k with Returns => _ | Throws => _ end] =>
      destruct k eqn:K
    end;
      eexists _, _; (split; [reflexivity|]); (split; [discriminate|]);
      (split; [|cbn; lia]).
    + rewrite delete_in_flight.
      apply (phase_done r h uri canvas img scaled blob _ Returns);
        [reflexivity | symmetry; exact K].
    + apply (phase_done r h uri canvas img scaled blob _ Throws);
        [reflexivity | symmetry; exact K].
  - (* Reading, rejected *)
    unfold aux.onRejected.
    take_failure (fails_exporting r h uri canvas img scaled).
Qed.

(** Every schedule of events runs, and leaves the request in a phase. *)
Lemma run_phase (evs : list HostEvent) (w : World) :
  phase r h w -> exists w', aux.run host evs w = Some w' /\ phase r h w'.
Proof.
  revert w. induction evs as [|ev evs IH]; intros w P.
  - exists w. split; [reflexivity | exact P].
  - cbn [aux.run]. destruct (awaits (pending w) ev) eqn:A.
    + destruct (dispatch_phase ev w P A) as (o & w' & D & NU & P' & _).
      rewrite D. destruct o; [apply IH, P' | apply IH, P' | contradiction].
    + rewrite (dispatch_not_awaited host ev w A). apply IH, P.
Qed.

Lemma request_phase (evs : list HostEvent) :
  has_input (svg r) = true ->
  exists w, request host r h evs = Some w /\ phase r h w.
Proof.
  intros V. unfold request.
  destruct (issue_phase V) as (o & w & I & NU & P). rewrite I.
  destruct o; [apply run_phase, P | apply run_phase, P | contradiction].
Qed.

(** What the log of a phase shows. *)
Lemma phase_stages (w : World) : phase r h w -> no_stage_revisited (log w).
Proof.
  intros P. unfold no_stage_revisited.
  destruct P as [| | |pre err k F|? ? ? ? ? ? k]; try reflexivity.
  - destruct F, k; reflexivity.
  - destruct k; reflexivity.
Qed.

Lemma phase_pending (w : World) :
  phase r h w -> pending w <> Idle ->
  callbacks (log w) = [] /\ executions (log w) = []
  /\ created (log w) = [handle h] /\ destroyed (log w) = []
  /\ allocated (log w) = [] /\ heap w = in_flight r h.
Proof.
  intros P NI. destruct P; try (now contradiction NI); repeat split.
Qed.

Lemma phase_idle (w : World) :
  phase r h w -> pending w = Idle ->
  exists img seen err,
    let k := cb r img seen err (meta r) in
    callbacks (log w) = [(img, seen, err, meta r)]
    /\ executions (log w) = [err]
    /\ created (log w) = [handle h]
    /\ destroyed (log w)
       = match k with Returns => [handle h] | Throws => [] end
    /\ heap w = heap_after r h k
    /\ (exists pre post,
          log w = (pre ++ [EvCallback img seen err (meta r)]
                       ++ match k with
                          | Returns => [EvDelete (handle h)]
                          | Throws => []
                          end ++ post)%list
          /\ destroyed post = [])
    /\ ((err = Error.None
         /\ exists on_heap bytes,
             seen = Some bytes
             /\ img = view_of on_heap (chars_size bytes)
             /\ allocated (log w) = [(on_heap, chars_size bytes)]
             /\ freed (log w) = [on_heap])
        \/ (err <> Error.None /\ err <> Error.NoInputData
            /\ img = string_view_default /\ seen = Some []
            /\ allocated (log w) = [])).
Proof.
  intros P I.
  destruct P as [| | |pre err k F K|uri canvas img scaled blob on_heap k O K];
    try discriminate I.
  - exists string_view_default, (Some []), err. cbv zeta. rewrite <- K.
    assert (callbacks pre = [] /\ executions pre = []
            /\ created pre = [handle h] /\ destroyed pre = []
            /\ allocated pre = [])
      as (C & E & N & D & A) by (destruct F; repeat split).
    cbn [log heap]. unfold callbacks, executions, created, destroyed,
      allocated in *.
    rewrite !omap_app, C, E, N, D, A.
    repeat split; try (destruct k; reflexivity).
    + exists (pre ++ [EvExecCb (handle h) 0 0 err (meta r)])%list, [].
      split; [|reflexivity].
      rewrite <- app_assoc. destruct k; reflexivity.
    + right. split; [destruct F; discriminate|].
      split; [destruct F; discriminate|].
      repeat split. destruct k; reflexivity.
  - exists (view_of on_heap (chars_size blob)), (Some blob), Error.None.
    cbv zeta. rewrite <- K. cbn [log heap].
    repeat split; try (destruct k; reflexivity).
    + exists (log_exporting r h uri canvas img scaled
              ++ [EvMalloc on_heap (chars_size blob);
                  EvExecCb (handle h) on_heap (chars_size blob)
                           Error.None (meta r)])%list,
        (match k with Returns => [] | Throws => [EvAlert] end
         ++ [EvFree on_heap])%list.
      split; [|destruct k; reflexivity].
      rewrite <- !app_assoc. destruct k; reflexivity.
    + left. split; [reflexivity|]. exists on_heap, blob.
      repeat split; destruct k; reflexivity.
Qed.

End Phases.

Section Runs.
Variable host : Host.

Lemma run_app (evs evs' : list HostEvent) (w : World) :
  aux.run host (evs ++ evs') w
  = match aux.run host evs w with
    | Some w' => aux.run host evs' w'
    | Datatypes.None => Datatypes.None
    end.
Proof.
  revert w. induction evs as [|ev evs IH]; intros w; [reflexivity|].
  cbn [aux.run app]. destruct (aux.dispatch host ev w) as [[] w']; auto.
Qed.

Lemma request_app (r : Request) (h : gmap N cell)
  (evs evs' : list HostEvent) (w : World) :
  request host r h evs = Some w ->
  request host r h (evs ++ evs') = aux.run host evs' w.
Proof.
  unfold request. destruct (issue host r (start h)) as [[] w0];
    try discriminate; intros E; now rewrite run_app, E.
Qed.

(** With nothing pending, no event is delivered. *)
Lemma run_idle (evs : list HostEvent) (w : World) :
  pending w = Idle -> aux.run host evs w = Some w.
Proof.
  intros I. induction evs as [|ev evs IH]; [reflexivity|].
  cbn [aux.run]. rewrite dispatch_not_awaited by now rewrite I. exact IH.
Qed.

End Runs.


(** C2, as stated, fails: with a callback that throws, the handle of a
    validated request is created and invoked once but never destroyed; it
    is still on the heap when nothing is pending any more. *)
Lemma handle_leaks_when_callback_throws :
  exists w,
    request sample_host (sample_request throwing) ∅ [ImgError] = Some w
    /\ pending w = Idle
    /\ created (log w) = [handle ∅]
    /\ List.length (callbacks (log w)) = 1%nat
    /\ destroyed (log w) = []
    /\ heap w !! handle ∅ = Some (CallbackCopy throwing).
Proof.
  eexists. split; [vm_compute; reflexivity|].
  repeat split.
Qed.

(** C2, amended.  A validated request creates exactly one handle, at a
    fresh address.  While a continuation is pending the handle lives and has
    been neither invoked nor destroyed.  Once nothing is pending it has
    been invoked exactly once, on the one terminal edge; if that call
    returned, the handle was destroyed exactly once, right after the call,
    and the heap is what it was before the request; if that call threw,
    [ExecCb] destroyed nothing and the handle is still allocated. *)
Theorem handle_created_invoked_destroyed_once (host : Host) (r : Request)
  (h : gmap N cell) (evs : list HostEvent) :
  has_input (svg r) = true ->
  exists w,
    request host r h evs = Some w
    /\ created (log w) = [handle h]
    /\ h !! handle h = Datatypes.None
    /\ (pending w <> Idle ->
        callbacks (log w) = [] /\ destroyed (log w) = []
        /\ heap w = <[handle h := CallbackCopy (cb r)]> h)
    /\ (pending w = Idle ->
        exists img seen err pre post,
          callbacks (log w) = [(img, seen, err, meta r)]
          /\ executions (log w) = [err]
          /\ match cb r img seen err (meta r) with
             | Returns =>
               destroyed (log w) = [handle h]
               /\ heap w = h
               /\ log w = (pre ++ [EvCallback img seen err (meta r);
                                   EvDelete (handle h)] ++ post)%list
             | Throws =>
               destroyed (log w) = []
               /\ heap w = <[handle h := CallbackCopy (cb r)]> h
             end).
Proof.
  intros V. destruct (request_phase host r h evs V) as (w & E & P).
  exists w. split; [exact E|].
  split.
  { destruct (pending w) eqn:I.
    - now destruct (phase_idle r h w P I) as (? & ? & ? & _ & _ & -> & _).
    - destruct (phase_pending r h w P) as (_ & _ & -> & _); congruence.
    - destruct (phase_pending r h w P) as (_ & _ & -> & _); congruence.
    - destruct (phase_pending r h w P) as (_ & _ & -> & _); congruence. }
  split; [apply fresh_addr_free|].
  split.
  { intros NI.
    destruct (phase_pending r h w P NI) as (C & _ & _ & D & _ & H). auto. }
  intros I.
  destruct (phase_idle r h w P I)
    as (img & seen & err & C & X & _ & D & H & (pre & post & L & _) & _).
  cbv zeta in D, H, L.
  exists img, seen, err, pre, post. split; [exact C|]. split; [exact X|].
  destruct (cb r img seen err (meta r)); auto.
Qed.

Lemma handle_created_invoked_destroyed_once_witness :
  has_input (svg (sample_request returning)) = true
  /\ exists w,
       request sample_host (sample_request returning) ∅ sample_schedule
       = Some w
       /\ created (log w) = [handle ∅].
Proof.
  split; [reflexivity|].
  destruct (handle_created_invoked_destroyed_once sample_host
              (sample_request returning) ∅ sample_schedule eq_refl)
    as (w & E & N & _).
  exists w. auto.
Defined.

(** C3.  When the markup is empty or begins with the terminator,
    [SvgToImage] calls the callback before it returns, once, with the empty
    view and [Error::NoInputData]; it creates no handle, leaves the heap as
    it was, enters no stage of the pipeline and leaves nothing pending, so
    that no later browser event does anything. *)
Theorem no_input_data_is_synchronous (host : Host) (r : Request)
  (h : gmap N cell) :
  svg r = [] \/ (exists rest, svg r = x00 :: rest) ->
  exists o w,
    issue host r (start h) = (o, w)
    /\ o <> Undefined
    /\ log w = [EvCallback string_view_default (Some []) Error.NoInputData
                           (meta r)]
    /\ sv_size string_view_default = 0
    /\ heap w = h
    /\ pending w = Idle
    /\ created (log w) = [] /\ stages (log w) = []
    /\ forall evs, request host r h evs = Some w.
Proof.
  intros S.
  set (w := {| heap := h; pending := Idle;
               log := [EvCallback string_view_default (Some [])
                                  Error.NoInputData (meta r)] |}).
  assert (issue host r (start h)
          = match cb r string_view_default (Some []) Error.NoInputData
                     (meta r) with
            | Returns => (Normal tt, w)
            | Throws => (Exception, w)
            end) as I.
  { unfold issue, SvgToImage.
    destruct S as [->|(rest & ->)]; reflexivity. }
  revert I.
  match goal with
  | |- context [match ?k with Returns => _ | Throws => _ end] => destruct k
  end;
    intros I; eexists _, _; (split; [exact I|]); (split; [discriminate|]);
    repeat split; intros evs; unfold request; rewrite I;
    now apply run_idle.
Qed.

Lemma no_input_data_is_synchronous_witness :
  (svg (empty_request returning) = []
   \/ exists rest, svg (empty_request returning) = x00 :: rest)
  /\ exists o w,
       issue sample_host (empty_request returning) (start ∅) = (o, w)
       /\ log w = [EvCallback string_view_default (Some [])
                              Error.NoInputData 7].
Proof.
  split; [left; reflexivity|].
  destruct (no_input_data_is_synchronous sample_host
              (empty_request returning) ∅ (or_introl eq_refl))
    as (o & w & I & _ & L & _).
  exists o, w. auto.
Defined.

(** C4.  On the success edge ([loadImage]) a buffer of exactly the byte
    count is allocated at a fresh address, the callback is called with
    [Error::None] on a view that shows exactly the produced bytes, held by
    that buffer, and the buffer is freed after the call whether the callback
    returned or threw; a failure edge ([failed]) allocates nothing and hands
    the callback the empty view.  So a finished request has allocated one
    buffer and freed it when it ended in [Error::None], and none
    otherwise. *)
Theorem success_buffer_is_transient (w : World) (pcb meta : ptr)
  (buf : chars) (cb : Callback) :
  heap w !! pcb = Some (CallbackCopy cb) ->
  let on_heap := fresh_addr (heap w) in
  let n := chars_size buf in
  let img := view_of on_heap n in
  (exists w',
     aux.loadImage pcb meta buf w = (Normal tt, w')
     /\ heap w !! on_heap = Datatypes.None
     /\ on_heap <> nullptr
     /\ log w'
        = (log w
           ++ [EvMalloc on_heap n;
               EvExecCb pcb on_heap n Error.None meta;
               EvCallback img (Some buf) Error.None meta]
           ++ match cb img (Some buf) Error.None meta with
              | Returns => [EvDelete pcb]
              | Throws => [EvAlert]
              end
           ++ [EvFree on_heap])%list
     /\ (0 < n -> img = {| sv_data := on_heap; sv_size := n |})
     /\ heap w' !! on_heap = Datatypes.None
     /\ allocated (log w') = (allocated (log w) ++ [(on_heap, n)])%list
     /\ freed (log w') = (freed (log w) ++ [on_heap])%list)
  /\ (forall err, exists o w',
        aux.failed pcb meta (Error.code err) w = (o, w')
        /\ o <> Undefined
        /\ allocated (log w') = allocated (log w)
        /\ callbacks (log w')
           = (callbacks (log w)
              ++ [(string_view_default, Some [], err, meta)])%list
        /\ dom (heap w') ⊆ dom (heap w))
  /\ (forall host r h evs w',
        has_input (svg r) = true ->
        request host r h evs = Some w' ->
        pending w' = Idle ->
        (executions (log w') = [Error.None]
         /\ exists p bytes,
              allocated (log w') = [(p, chars_size bytes)]
              /\ freed (log w') = [p])
        \/ (executions (log w') <> [Error.None]
            /\ allocated (log w') = [])).
Proof.
  intros L. cbv zeta. split; [|split].
  - pose proof (fresh_addr_free (heap w)) as F.
    pose proof (fresh_addr_not_null (heap w)) as NN.
    rewrite (loadImage_live w pcb meta buf cb L). cbv zeta.
    match goal with
    | |- context [match ?k with Returns => _ | Throws => _ end] => destruct k
    end; eexists;
      (split; [reflexivity|]); cbn [heap log];
      (split; [exact F|]); (split; [exact NN|]);
      (split; [reflexivity|]);
      (split; [intros Hn; rewrite view_of_fresh;
               apply N.ltb_lt in Hn; now rewrite Hn|]);
      unfold allocated, freed; rewrite !omap_app.
    + split; [|split; reflexivity].
      rewrite lookup_delete_ne by congruence. exact F.
    + split; [exact F|split; reflexivity].
  - intros err. rewrite (failed_live w pcb meta err cb L).
    destruct (cb string_view_default (Some []) err meta); eexists _, _;
      (split; [reflexivity|]); (split; [discriminate|]); cbn [heap log];
      unfold allocated, callbacks; rewrite !omap_app;
      (split; [now rewrite app_nil_r|]); (split; [reflexivity|]).
    + apply subseteq_dom, delete_subseteq.
    + reflexivity.
  - intros host r h evs w' V E I.
    destruct (request_phase host r h evs V) as (w0 & E0 & P).
    rewrite E in E0. injection E0 as <-.
    destruct (phase_idle r h w' P I)
      as (img & seen & err & _ & X & _ & _ & _ & _ & O).
    rewrite X.
    destruct O as [(-> & p & bytes & _ & _ & A & F)|(NE & _ & _ & _ & A)].
    + left. split; [reflexivity|]. now exists p, bytes.
    + right. split; [congruence | exact A].
Qed.

Lemma success_buffer_is_transient_witness :
  heap (sample_world throwing) !! 1 = Some (CallbackCopy throwing)
  /\ exists w',
       aux.loadImage 1 7 png_magic (sample_world throwing) = (Normal tt, w')
       /\ heap w' !! fresh_addr (heap (sample_world throwing))
          = Datatypes.None.
Proof.
  split; [reflexivity|].
  destruct (success_buffer_is_transient (sample_world throwing) 1 7 png_magic
              throwing eq_refl) as ((w' & E & _ & _ & _ & _ & F & _) & _ & _).
  exists w'. auto.
Defined.

(** C9.  [ExecCb] on a live handle calls the callback once, with the error
    and the metadata it was given, on the view [{data, size}] when [data] is
    not null and [size] is positive, and on the empty view in every other
    case, whatever the error: the callback sees a non-empty view exactly
    when [data] is not null and [size] is positive.  In particular an export
    of zero bytes reaches the callback as [Error::None] with the empty
    view. *)
Theorem ExecCb_view_is_guarded (w : World) (pcb data : ptr) (size : N)
  (err : Error.t) (meta : ptr) (cb : Callback) :
  heap w !! pcb = Some (CallbackCopy cb) ->
  (exists o w' img,
     aux.ExecCb pcb data size err meta w = (o, w')
     /\ o <> Undefined
     /\ callbacks (log w')
        = (callbacks (log w)
           ++ [(img, view_chars (heap w) img, err, meta)])%list
     /\ (data <> nullptr /\ 0 < size ->
         img = {| sv_data := data; sv_size := size |})
     /\ (~ (data <> nullptr /\ 0 < size) -> img = string_view_default)
     /\ (sv_size img <> 0 <-> data <> nullptr /\ 0 < size))
  /\ (exists w',
        aux.loadImage pcb meta [] w = (Normal tt, w')
        /\ callbacks (log w')
           = (callbacks (log w)
              ++ [(string_view_default, Some [], Error.None, meta)])%list).
Proof.
  intros L. split.
  - rewrite (ExecCb_live w pcb data size err meta cb L). cbv zeta.
    assert ((data <> nullptr /\ 0 < size ->
             view_of data size = {| sv_data := data; sv_size := size |})
            /\ (~ (data <> nullptr /\ 0 < size) ->
                view_of data size = string_view_default)
            /\ (sv_size (view_of data size) <> 0
                <-> data <> nullptr /\ 0 < size)) as V.
    { unfold view_of.
      destruct (N.eqb_spec data nullptr), (N.ltb_spec 0 size);
        cbn [negb andb sv_size string_view_default];
        repeat split; try tauto; try lia; intros; try lia; tauto. }
    destruct (cb (view_of data size) _ err meta);
      eexists _, _, (view_of data size);
      (split; [reflexivity|]); (split; [discriminate|]);
      cbn [heap log]; unfold callbacks; rewrite !omap_app;
      (split; [reflexivity | exact V]).
  - rewrite (loadImage_live w pcb meta [] cb L). cbv zeta.
    rewrite view_of_fresh. change (0 <? chars_size []) with false. cbv iota.
    match goal with
    | |- context [match ?k with Returns => _ | Throws => _ end] => destruct k
    end; eexists;
      (split; [reflexivity|]); cbn [log]; unfold callbacks;
      now rewrite !omap_app.
Qed.

Lemma ExecCb_view_is_guarded_witness :
  heap (sample_world returning) !! 1 = Some (CallbackCopy returning)
  /\ exists o w',
       aux.ExecCb 1 0 0 Error.BlobExportFailed 7 (sample_world returning)
       = (o, w')
       /\ callbacks (log w')
          = [(string_view_default, Some [], Error.BlobExportFailed, 7)].
Proof.
  split; [reflexivity|].
  destruct (ExecCb_view_is_guarded (sample_world returning) 1 0 0
              Error.BlobExportFailed 7 returning eq_refl)
    as ((o & w' & img & E & _ & C & _ & D & _) & _).
  exists o, w'. split; [exact E|].
  rewrite C, (D ltac:(intros [N0 _]; now apply N0)). reflexivity.
Defined.

(** C7, as stated, fails: an export of zero bytes is not an error.  The
    blob is not null, its bytes are read, and the callback receives
    [Error::None] with the empty view. *)
Lemma empty_export_is_delivered_as_success :
  exists w,
    request sample_host (sample_request returning) ∅ empty_export_schedule
    = Some w
    /\ pending w = Idle
    /\ callbacks (log w) = [(string_view_default, Some [], Error.None, 7)]
    /\ executions (log w) = [Error.None]
    /\ executions (log w) <> [Error.BlobExportFailed].
Proof.
  eexists. split; [vm_compute; reflexivity|].
  repeat split. discriminate.
Qed.

(** C7, amended.  While the export is pending and the handle lives: a null
    export result ends the request with [BlobExportFailed] and the empty
    view; a non-null result, of any length, calls nothing yet and waits for
    its bytes; when they are read the request is done, the callback
    receiving [Error::None] and exactly these bytes (the empty view when
    there are none); when the read is rejected the request ends with
    [BlobExportFailed] and the empty view. *)
Theorem export_result_decides_the_edge (host : Host) (w : World)
  (c : Closure) (canvas : Canvas) (cb : Callback) :
  pending w = BlobPending c canvas ->
  heap w !! c_pcb c = Some (CallbackCopy cb) ->
  (exists o w',
     aux.dispatch host (BlobCallback Datatypes.None) w = (o, w')
     /\ o <> Undefined /\ pending w' = Idle
     /\ callbacks (log w')
        = (callbacks (log w)
           ++ [(string_view_default, Some [], Error.BlobExportFailed,
                c_meta c)])%list
     /\ executions (log w')
        = (executions (log w) ++ [Error.BlobExportFailed])%list)
  /\ (forall bytes : chars,
        let reading := {| heap := heap w;
                          pending := ArrayBufferPending c bytes;
                          log := log w |} in
        aux.dispatch host (BlobCallback (Some bytes)) w = (Normal tt, reading)
        /\ (exists w',
              aux.dispatch host ArrayBufferFulfilled reading = (Normal tt, w')
              /\ pending w' = Idle
              /\ callbacks (log w')
                 = (callbacks (log w)
                    ++ [(view_of (fresh_addr (heap w)) (chars_size bytes),
                         Some bytes, Error.None, c_meta c)])%list
              /\ executions (log w')
                 = (executions (log w) ++ [Error.None])%list
              /\ (bytes = [] ->
                  view_of (fresh_addr (heap w)) (chars_size bytes)
                  = string_view_default))
        /\ (exists o w',
              aux.dispatch host ArrayBufferRejected reading = (o, w')
              /\ o <> Undefined /\ pending w' = Idle
              /\ callbacks (log w')
                 = (callbacks (log w)
                    ++ [(string_view_default, Some [],
                         Error.BlobExportFailed, c_meta c)])%list
              /\ executions (log w')
                 = (executions (log w) ++ [Error.BlobExportFailed])%list)).
Proof.
  destruct c as [cdata cpcb cmeta cformat cquality cx cy cwidth cheight].
  cbn [c_pcb c_meta].
  intros B L. split; [|intros bytes; cbv zeta; split; [|split]].
  - unfold aux.dispatch. rewrite B. unfold bind, set_pending.
    cbn [heap pending log]. unfold aux.processBlob.
    change aux.RasterError.BlobExportFailed
      with (Error.code Error.BlobExportFailed).
    rewrite (failed_live _ _ _ _ cb) by exact L. cbn [heap pending log].
    case_completion; eexists _, _; (split; [reflexivity|]);
      (split; [discriminate|]); (split; [reflexivity|]); cbn [log];
      unfold callbacks, executions; now rewrite !omap_app.
  - unfold aux.dispatch. rewrite B. reflexivity.
  - unfold aux.dispatch. cbn [pending]. unfold bind, set_pending.
    cbn [heap pending log].
    rewrite (loadImage_live _ _ _ _ cb) by exact L. cbv zeta.
    cbn [heap pending log].
    case_completion; eexists; (split; [reflexivity|]);
      (split; [reflexivity|]); cbn [log];
      unfold callbacks, executions; rewrite !omap_app;
      (split; [reflexivity|]); (split; [reflexivity|]);
      intros ->; now rewrite view_of_fresh.
  - unfold aux.dispatch. cbn [pending]. unfold bind, set_pending.
    cbn [heap pending log]. unfold aux.onRejected.
    change aux.RasterError.BlobExportFailed
      with (Error.code Error.BlobExportFailed).
    rewrite (failed_live _ _ _ _ cb) by exact L. cbn [heap pending log].
    case_completion; eexists _, _; (split; [reflexivity|]);
      (split; [discriminate|]); (split; [reflexivity|]); cbn [log];
      unfold callbacks, executions; now rewrite !omap_app.
Qed.

Lemma export_result_decides_the_edge_witness :
  pending (exporting_world returning)
  = BlobPending sample_closure
                {| canvas_width := S754_finite false 64 0;
                   canvas_height := S754_finite false 32 0 |}
  /\ heap (exporting_world returning) !! c_pcb sample_closure
     = Some (CallbackCopy returning)
  /\ exists o w',
       aux.dispatch sample_host (BlobCallback Datatypes.None)
                    (exporting_world returning) = (o, w')
       /\ pending w' = Idle.
Proof.
  split; [reflexivity|]. split; [reflexivity|].
  destruct (export_result_decides_the_edge sample_host
              (exporting_world returning) sample_closure _ returning
              eq_refl eq_refl) as ((o & w' & E & _ & I & _) & _).
  exists o, w'. auto.
Defined.

(** A failure edge touches neither the surface nor what is pending. *)
Lemma failed_surface (pcb meta : ptr) (err : N) (w : World) :
  exists o w' tail,
    aux.failed pcb meta err w = (o, w')
    /\ log w' = (log w ++ tail)%list
    /\ surface_actions tail = []
    /\ pending w' = pending w.
Proof.
  unfold aux.failed, aux.ccall_ExecCb.
  destruct (Error.of_code err) as [e|].
  - unfold bind, emit.
    destruct (heap w !! pcb) as [[cb|bytes]|] eqn:L.
    + rewrite (ExecCb_live _ pcb 0 0 e meta cb) by exact L. cbv zeta.
      case_completion; eexists _, _, _; (split; [reflexivity|]);
        cbn [log pending]; rewrite <- app_assoc; repeat split.
    + unfold aux.ExecCb. cbn [heap]. rewrite L.
      eexists _, _, _. split; [reflexivity|]. repeat split.
    + unfold aux.ExecCb. cbn [heap]. rewrite L.
      eexists _, _, _. split; [reflexivity|]. repeat split.
  - exists Undefined, w, []. rewrite app_nil_r. repeat split.
Qed.

Lemma truthy_nonzero (v : number) : nonzero v -> truthy v = true.
Proof. destruct v; simpl; tauto. Qed.

Lemma truthy_is_zero (v : number) : is_zero v -> truthy v = false.
Proof. destruct v; simpl; tauto. Qed.

(** [drawSvg] creates one canvas, and every call on the surface is made on
    the canvas and with the scaling it settled on. *)
Lemma drawSvg_surface (host : Host) (data : chars) (pcb meta : ptr)
  (format : string) (quality x y width height : number) (img : Image)
  (fmt : string) (w : World) :
  exists o w' rest,
    aux.drawSvg host data pcb meta format quality x y width height img fmt w
    = (o, w')
    /\ log w' = (log w ++ EvCreateCanvas :: rest)%list
    /\ let canvas := canvas_for width height img in
       if getContext_2d host canvas then
         exists exported,
           surface_actions rest
           = EvDrawImage canvas img x y (scaling_for width height) :: exported
           /\ (exported = [] \/ exported = [EvToBlob canvas fmt quality])
       else surface_actions rest = [].
Proof.
  rewrite drawSvg_eq. cbv zeta.
  set (canvas := canvas_for width height img).
  set (scaled := scaling_for width height).
  destruct (getContext_2d host canvas);
    [destruct (drawImage_throws host canvas img x y scaled);
     [|destruct (toBlob_throws host canvas fmt quality)]|].
  - destruct (failed_surface pcb meta aux.RasterError.CanvasDrawingFailed
                (logged [EvCreateCanvas; EvDrawImage canvas img x y scaled] w))
      as (o & w' & tail & E & L & T & _).
    rewrite E.
    exists o, w', (EvDrawImage canvas img x y scaled :: tail).
    split; [reflexivity|].
    split; [rewrite L; cbn; now rewrite <- app_assoc|].
    exists []. split; [|now left].
    change (surface_actions (EvDrawImage canvas img x y scaled :: tail))
      with (EvDrawImage canvas img x y scaled :: surface_actions tail).
    now rewrite T.
  - destruct (failed_surface pcb meta aux.RasterError.CanvasDrawingFailed
                (logged [EvCreateCanvas; EvDrawImage canvas img x y scaled;
                         EvToBlob canvas fmt quality] w))
      as (o & w' & tail & E & L & T & _).
    rewrite E.
    exists o, w', (EvDrawImage canvas img x y scaled
                   :: EvToBlob canvas fmt quality :: tail).
    split; [reflexivity|].
    split; [rewrite L; cbn; now rewrite <- app_assoc|].
    exists [EvToBlob canvas fmt quality]. split; [|now right].
    change (surface_actions (EvDrawImage canvas img x y scaled
                             :: EvToBlob canvas fmt quality :: tail))
      with (EvDrawImage canvas img x y scaled
            :: EvToBlob canvas fmt quality :: surface_actions tail).
    now rewrite T.
  - eexists _, _, _. split; [reflexivity|]. split; [reflexivity|].
    exists [EvToBlob canvas fmt quality]. split; [reflexivity | now right].
  - destruct (failed_surface pcb meta aux.RasterError.CanvasDrawingFailed
                (logged [EvCreateCanvas] w))
      as (o & w' & tail & E & L & T & _).
    rewrite E.
    exists o, w', tail.
    split; [reflexivity|].
    split; [rewrite L; cbn; now rewrite <- app_assoc|].
    exact T.
Qed.

(** C8.  In the drawing stage, when [width] and [height] are both non-zero
    the canvas is given exactly [(width, height)] and the decoded image is
    drawn on it at [(x, y)] scaled into [(width, height)]; when both are
    zero the canvas is given the decoded image's own size and the image is
    drawn at [(x, y)] unscaled.  The drawing happens when the canvas has a
    2d context, and an export, if one is requested, is of that canvas. *)
Theorem drawing_surface_size (host : Host) (data : chars) (pcb meta : ptr)
  (format : string) (quality x y width height : number) (img : Image)
  (fmt : string) (w : World) :
  exists o w' rest,
    aux.drawSvg host data pcb meta format quality x y width height img fmt w
    = (o, w')
    /\ log w' = (log w ++ EvCreateCanvas :: rest)%list
    /\ (nonzero width -> nonzero height ->
        let canvas := {| canvas_width := width; canvas_height := height |} in
        (forall canvas0,
           aux.setCanvasSize width height canvas0 width height img = canvas)
        /\ (getContext_2d host canvas = true ->
            exists exported,
              surface_actions rest
              = EvDrawImage canvas img x y (Some (width, height)) :: exported
              /\ (exported = [] \/ exported = [EvToBlob canvas fmt quality])))
    /\ (is_zero width -> is_zero height ->
        let canvas := {| canvas_width := img_width img;
                         canvas_height := img_height img |} in
        (forall canvas0,
           aux.setCanvasSize width height canvas0 width height img = canvas)
        /\ (getContext_2d host canvas = true ->
            exists exported,
              surface_actions rest
              = EvDrawImage canvas img x y Datatypes.None :: exported
              /\ (exported = [] \/ exported = [EvToBlob canvas fmt quality]))).
Proof.
  destruct (drawSvg_surface host data pcb meta format quality x y width
              height img fmt w) as (o & w' & rest & E & L & S).
  exists o, w', rest. split; [exact E|]. split; [exact L|].
  cbv zeta in S. unfold canvas_for, scaling_for in S. split.
  - intros W H. cbv zeta.
    unfold aux.setCanvasSize.
    rewrite (truthy_nonzero _ W), (truthy_nonzero _ H) in *.
    cbn [andb] in *. split; [reflexivity|].
    intros C. now rewrite C in S.
  - intros W H. cbv zeta.
    unfold aux.setCanvasSize.
    rewrite (truthy_is_zero _ W) in *.
    cbn [andb] in *. split; [reflexivity|].
    intros C. now rewrite C in S.
Qed.

Lemma drawing_surface_size_witness :
  nonzero (S754_finite false 64 0) /\ nonzero (S754_finite false 32 0)
  /\ forall canvas0,
       aux.setCanvasSize (S754_finite false 64 0) (S754_finite false 32 0)
                         canvas0
                         (S754_finite false 64 0) (S754_finite false 32 0)
                         {| img_src := ""; img_width := S754_finite false 10 0;
                            img_height := S754_finite false 20 0 |}
       = {| canvas_width := S754_finite false 64 0;
            canvas_height := S754_finite false 32 0 |}.
Proof.
  split; [exact I|]. split; [exact I|].
  destruct (drawing_surface_size sample_host [x3c; x73; x76; x67; x2f; x3e]
              1 7 "image/png" (S754_finite false 1 0) (S754_zero false)
              (S754_zero false) (S754_finite false 64 0)
              (S754_finite false 32 0)
              {| img_src := ""; img_width := S754_finite false 10 0;
                 img_height := S754_finite false 20 0 |}
              "image/png" (sample_world returning))
    as (o & w' & rest & _ & _ & Sized & _).
  exact (proj1 (Sized I I)).
Defined.

(* ====================================================================== *)
(** * More on the helpers *)
(* ====================================================================== *)

(** X1.  The table [RasterError] of the JavaScript side and [enum class Error]
    agree: every enumerator crosses the boundary as its own value and comes
    back as itself, no other number stands for an enumerator, and each entry
    of the table is the enumerator of the same name. *)
Theorem RasterError_agrees_with_Error :
  (forall e, Error.of_code (Error.code e) = Some e)
  /\ (forall n e, Error.of_code n = Some e <-> n = Error.code e)
  /\ (forall n, 5 < n <-> Error.of_code n = Datatypes.None)
  /\ Error.of_code aux.RasterError.None = Some Error.None
  /\ Error.of_code aux.RasterError.NoInputData = Some Error.NoInputData
  /\ Error.of_code aux.RasterError.UriEncodingFailed
     = Some Error.UriEncodingFailed
  /\ Error.of_code aux.RasterError.ImgLoadingFailed
     = Some Error.ImgLoadingFailed
  /\ Error.of_code aux.RasterError.CanvasDrawingFailed
     = Some Error.CanvasDrawingFailed
  /\ Error.of_code aux.RasterError.BlobExportFailed
     = Some Error.BlobExportFailed.
Proof.
  assert (forall n, 5 < n -> Error.of_code n = Datatypes.None) as Big.
  { intros n Hn. unfold Error.of_code.
    destruct n as [|[[[|[]|]|[[]|[]|]|]|[[|[]|]|[[]|[]|]|]|]]; try reflexivity;
      lia. }
  split; [apply of_code_code|].
  split.
  { intros n e. split.
    - intros E. destruct (N.le_gt_cases n 5) as [Hn|Hn].
      + assert (n = 0 \/ n = 1 \/ n = 2 \/ n = 3 \/ n = 4 \/ n = 5)
          as [->|[->|[->|[->|[->| ->]]]]] by lia;
          cbn in E; injection E as <-; reflexivity.
      + rewrite (Big n Hn) in E. discriminate E.
    - intros ->. apply of_code_code. }
  split.
  { intros n. split; [apply Big|].
    intros E. destruct (N.le_gt_cases n 5) as [Hn|Hn]; [|exact Hn].
    assert (n = 0 \/ n = 1 \/ n = 2 \/ n = 3 \/ n = 4 \/ n = 5)
      as [->|[->|[->|[->|[->| ->]]]]] by lia; discriminate E. }
  repeat split.
Qed.

(** X2.  [ToCStr] names every error and every format differently: the name
    tells the enumerator. *)
Theorem ToCStr_names_are_distinct :
  (forall a b : Error.t, ToCStr_Error a = ToCStr_Error b <-> a = b)
  /\ (forall a b : Format.t, ToCStr_Format a = ToCStr_Format b <-> a = b).
Proof.
  split; intros a b; (split; [|now intros ->]);
    destruct a, b; intros E; try reflexivity; discriminate E.
Qed.

(** X3.  Where no address sum wraps, two headers are the same string
    exactly when they show the same bytes: the hex formatting loses
    nothing.  The two calls may be on different views, memories, positions
    and lengths. *)
Theorem GetImageHeader_is_lossless (bits : N) (mem mem' : Flat.memory)
  (a b : string_view) (p n q m : N) :
  sv_data a + sv_size a < 2 ^ bits ->
  sv_data a + p + n < 2 ^ bits ->
  sv_data b + sv_size b < 2 ^ bits ->
  sv_data b + q + m < 2 ^ bits ->
  Flat.GetImageHeader bits mem a p n = Flat.GetImageHeader bits mem' b q m
  <-> clipped (Flat.contents mem a) p n = clipped (Flat.contents mem' b) q m.
Proof.
  intros Fa Wa Fb Wb.
  rewrite (GetImageHeader_in_range bits mem a p n Fa Wa).
  rewrite (GetImageHeader_in_range bits mem' b q m Fb Wb).
  rewrite !GetImageHeader_eq. split.
  - intros E. injection E as E. now apply hex_pairs_inj.
  - now intros ->.
Qed.

Lemma GetImageHeader_is_lossless_witness :
  Flat.GetImageHeader 64 sample_memory sample_view 1 2
  = Flat.GetImageHeader 64 sample_memory {| sv_data := 17; sv_size := 2 |}
                        0 8.
Proof.
  apply (GetImageHeader_is_lossless 64 sample_memory sample_memory
           sample_view {| sv_data := 17; sv_size := 2 |} 1 2 0 8);
    vm_compute; reflexivity.
Defined.

Section Gluing.

Lemma hex_pairs_not_empty (b : byte) (l : list byte) :
  empty (hex_pairs (b :: l)) = false.
Proof. destruct l; reflexivity. Qed.

Lemma hex_pairs_app (l1 l2 : list byte) :
  hex_pairs (l1 ++ l2) = glue (hex_pairs l1) (hex_pairs l2).
Proof.
  induction l1 as [|a l1 IH]; [reflexivity|].
  destruct l1 as [|a' l1].
  - destruct l2 as [|b l2]; [reflexivity|].
    change (hex_pairs ([a] ++ b :: l2))
      with (hex_pair a ++ " " ++ hex_pairs (b :: l2))%string.
    unfold glue. now rewrite !hex_pairs_not_empty.
  - change (hex_pairs ((a :: a' :: l1) ++ l2))
      with (hex_pair a ++ " " ++ hex_pairs ((a' :: l1) ++ l2))%string.
    rewrite IH. unfold glue.
    rewrite !hex_pairs_not_empty.
    destruct (empty (hex_pairs l2)); [reflexivity|].
    change (hex_pairs (a :: a' :: l1))
      with (hex_pair a ++ " " ++ hex_pairs (a' :: l1))%string.
    now rewrite !string_app_assoc.
Qed.

Lemma clipped_app (img : chars) (pos n m : N) :
  clipped img pos (n + m)
  = (clipped img pos n ++ clipped img (pos + n) m)%list.
Proof.
  unfold clipped. rewrite !N2Nat.inj_add.
  rewrite <- (take_take_drop (drop (N.to_nat pos) img)
                             (N.to_nat n) (N.to_nat m)).
  now rewrite drop_drop.
Qed.

End Gluing.

(** X4.  Where no address sum wraps, a header of [n + m] bytes is the
    header of the first [n] glued to the header of the next [m]: with one
    space between them when both show bytes, and alone when the other is
    empty. *)
Theorem GetImageHeader_splits (bits : N) (mem : Flat.memory)
  (img : string_view) (pos n m : N) :
  sv_data img + sv_size img < 2 ^ bits ->
  sv_data img + pos + n + m < 2 ^ bits ->
  exists h1 h2,
    Flat.GetImageHeader bits mem img pos n = Some h1
    /\ Flat.GetImageHeader bits mem img (pos + n) m = Some h2
    /\ Flat.GetImageHeader bits mem img pos (n + m) = Some (glue h1 h2).
Proof.
  intros F W.
  exists (hex_pairs (clipped (Flat.contents mem img) pos n)),
         (hex_pairs (clipped (Flat.contents mem img) (pos + n) m)).
  rewrite !GetImageHeader_in_range by lia.
  rewrite !GetImageHeader_eq, clipped_app, hex_pairs_app. auto.
Qed.

Lemma GetImageHeader_splits_witness :
  exists h1 h2,
    Flat.GetImageHeader 32 sample_memory sample_view 0 1 = Some h1
    /\ Flat.GetImageHeader 32 sample_memory sample_view 1 7 = Some h2
    /\ Flat.GetImageHeader 32 sample_memory sample_view 0 8
       = Some (glue h1 h2).
Proof.
  apply (GetImageHeader_splits 32 sample_memory sample_view 0 1 7);
    vm_compute; reflexivity.
Defined.

Section Extension.

Lemma sniffed_unique (img : chars) (f f' : Format.t) :
  sniffed img f -> sniffed img f' -> f = f'.
Proof.
  pose proof (png_not_jpeg img). pose proof (png_not_riff img).
  pose proof (jpeg_not_riff img).
  intros S S'. destruct S, S'; try reflexivity; tauto.
Qed.

Lemma GetImageFormat_of_sniffed (img : chars) (f : Format.t) :
  sniffed img f <-> GetImageFormat img = Some f.
Proof.
  destruct (GetImageFormat_sniffed img) as (f' & E & S').
  split.
  - intros S. now rewrite E, (sniffed_unique img f f' S S').
  - intros E'. rewrite E in E'. now injection E' as <-.
Qed.

Lemma magic_at_length (img : chars) (offset : nat) (magic : list byte) :
  magic_at img offset magic ->
  (offset + List.length magic <= List.length img)%nat \/ magic = [].
Proof.
  unfold magic_at. intros E. apply (f_equal (@List.length byte)) in E.
  rewrite length_take, length_drop in E.
  destruct magic; [now right | left]. cbn [List.length] in *. lia.
Qed.

Lemma magic_at_app (img tail : chars) (offset : nat) (magic : list byte) :
  magic_at img offset magic -> magic_at (img ++ tail)%list offset magic.
Proof.
  intros M. destruct (magic_at_length _ _ _ M) as [L| ->]; [|reflexivity].
  unfold magic_at in *. rewrite drop_app, take_app, length_drop.
  replace (List.length magic - (List.length img - offset))%nat with 0%nat
    by lia.
  now rewrite take_0, app_nil_r.
Qed.

End Extension.

(** X5.  A buffer that is recognised keeps its format whatever bytes are
    appended to it. *)
Theorem GetImageFormat_survives_appending (img tail : chars)
  (fmt : Format.t) :
  GetImageFormat img = Some fmt -> fmt <> Format.Unknown ->
  GetImageFormat (img ++ tail)%list = Some fmt.
Proof.
  intros E K. apply GetImageFormat_of_sniffed in E.
  apply GetImageFormat_of_sniffed.
  pose proof (png_not_jpeg (img ++ tail)%list).
  pose proof (png_not_riff (img ++ tail)%list).
  pose proof (jpeg_not_riff (img ++ tail)%list).
  destruct E as [P|NP J|NP NJ R W|]; [| | |contradiction].
  - apply sniffed_png. now apply magic_at_app.
  - apply (magic_at_app _ tail) in J. apply sniffed_jpeg; tauto.
  - apply (magic_at_app _ tail) in R. apply (magic_at_app _ tail) in W.
    apply sniffed_webp; tauto.
Qed.

Lemma GetImageFormat_survives_appending_witness :
  GetImageFormat [xff; xd8] = Some Format.Jpeg
  /\ Format.Jpeg <> Format.Unknown
  /\ GetImageFormat ([xff; xd8] ++ [xff; xe0; x00; x10])%list
     = Some Format.Jpeg.
Proof.
  split; [reflexivity|]. split; [discriminate|].
  apply (GetImageFormat_survives_appending [xff; xd8] [xff; xe0; x00; x10]
           Format.Jpeg); [reflexivity | discriminate].
Defined.

(** X6.  No format is reported for a buffer shorter than what its signature
    test reads: 8 bytes for [Png], 2 for [Jpeg], 12 for [Webp]. *)
Theorem GetImageFormat_needs_the_whole_signature (img : chars)
  (fmt : Format.t) :
  GetImageFormat img = Some fmt ->
  (signature_length fmt <= List.length img)%nat.
Proof.
  intros E. apply GetImageFormat_of_sniffed in E.
  destruct E as [P|_ J|_ _ _ W|]; cbn [signature_length].
  - destruct (magic_at_length _ _ _ P) as [L|L]; [exact L | discriminate L].
  - destruct (magic_at_length _ _ _ J) as [L|L]; [exact L | discriminate L].
  - destruct (magic_at_length _ _ _ W) as [L|L]; [exact L | discriminate L].
  - lia.
Qed.

Lemma GetImageFormat_needs_the_whole_signature_witness :
  GetImageFormat [x52; x49; x46; x46; x24; x00; x00; x00; x57; x45; x42; x50]
  = Some Format.Webp
  /\ (signature_length Format.Webp
      <= List.length [x52; x49; x46; x46; x24; x00; x00; x00;
                      x57; x45; x42; x50])%nat.
Proof.
  split; [reflexivity|].
  apply (GetImageFormat_needs_the_whole_signature
           [x52; x49; x46; x46; x24; x00; x00; x00; x57; x45; x42; x50]
           Format.Webp).
  reflexivity.
Defined.

(* ====================================================================== *)
(** * More on the pipeline *)
(* ====================================================================== *)

Section Edges.

(** A terminal edge, on any world where the handle lives. *)
Lemma failed_edge (w : World) (pcb meta : ptr) (err : Error.t)
  (cb : Callback) :
  heap w !! pcb = Some (CallbackCopy cb) ->
  exists o w',
    aux.failed pcb meta (Error.code err) w = (o, w')
    /\ o <> Undefined
    /\ (o = Exception
        <-> cb string_view_default (Some []) err meta = Throws)
    /\ pending w' = pending w
    /\ callbacks (log w')
       = (callbacks (log w)
          ++ [(string_view_default, Some [], err, meta)])%list
    /\ heap w' = match cb string_view_default (Some []) err meta with
                 | Returns => delete pcb (heap w)
                 | Throws => heap w
                 end
    /\ (exists added, log w' = (log w ++ added)%list
                      /\ ~ In EvAlert added).
Proof.
  intros L. rewrite (failed_live w pcb meta err cb L).
  destruct (cb string_view_default (Some []) err meta); eexists _, _;
    (split; [reflexivity|]); (split; [discriminate|]);
    (split; [split; [discriminate || reflexivity
                    | discriminate || reflexivity]|]);
    (split; [reflexivity|]); cbn [heap log];
    (split; [unfold callbacks; now rewrite omap_app|]);
    (split; [reflexivity|]); eexists; (split; [reflexivity|]);
    cbn; intuition discriminate.
Qed.

Lemma loadImage_edge (w : World) (pcb meta : ptr) (buf : chars)
  (cb : Callback) :
  heap w !! pcb = Some (CallbackCopy cb) ->
  exists w' img,
    aux.loadImage pcb meta buf w = (Normal tt, w')
    /\ pending w' = pending w
    /\ callbacks (log w')
       = (callbacks (log w) ++ [(img, Some buf, Error.None, meta)])%list
    /\ heap w' = match cb img (Some buf) Error.None meta with
                 | Returns => delete pcb (heap w)
                 | Throws => heap w
                 end
    /\ (exists added,
          log w' = (log w ++ added)%list
          /\ (In EvAlert added
              <-> cb img (Some buf) Error.None meta = Throws)).
Proof.
  intros L. rewrite (loadImage_live w pcb meta buf cb L). cbv zeta.
  remember (cb (view_of (fresh_addr (heap w)) (chars_size buf)) (Some buf)
               Error.None meta) as k eqn:K.
  destruct k;
    eexists _, (view_of (fresh_addr (heap w)) (chars_size buf));
    rewrite <- K;
    (split; [reflexivity|]); (split; [reflexivity|]); cbn [heap log];
    (split; [unfold callbacks; now rewrite omap_app|]);
    (split; [reflexivity|]); eexists; (split; [reflexivity|]);
    cbn; intuition discriminate.
Qed.

End Edges.

Section Steps.
Variable host : Host.

Ltac edge_fails W pcb meta err cb L :=
  let o := fresh "o" in
  let w' := fresh "w'" in
  let E := fresh "E" in
  let NU := fresh "NU" in
  let P' := fresh "P'" in
  let C := fresh "C" in
  let H := fresh "H" in
  destruct (failed_edge W pcb meta err cb L)
    as (o & w' & E & NU & _ & P' & C & H & _);
  exists o, w'; split; [exact E|]; split; [exact NU|]; right;
  split; [exact P'|]; eexists _, _, _;
  split; [rewrite C; unfold callbacks, logged; cbn [log];
          rewrite ?omap_app; cbn; rewrite ?app_nil_r; reflexivity
         | exact H].

(** One event, on any heap where the handle of the pending continuation
    lives: the request stays pending with the same closure and has called
    nothing, or it ends with one call that carries its own metadata. *)
Lemma dispatch_step (ev : HostEvent) (w : World) (c : Closure)
  (cb : Callback) :
  closure_of (pending w) = Some c ->
  heap w !! c_pcb c = Some (CallbackCopy cb) ->
  exists o w',
    aux.dispatch host ev w = (o, w')
    /\ o <> Undefined
    /\ ((closure_of (pending w') = Some c
         /\ heap w' = heap w
         /\ callbacks (log w') = callbacks (log w))
        \/ (pending w' = Idle
            /\ exists img seen err,
                 callbacks (log w')
                 = (callbacks (log w) ++ [(img, seen, err, c_meta c)])%list
                 /\ heap w' = match cb img seen err (c_meta c) with
                              | Returns => delete (c_pcb c) (heap w)
                              | Throws => heap w
                              end)).
Proof.
  destruct c as [cdata cpcb cmeta cformat cquality cx cy cwidth cheight].
  cbn [c_pcb c_meta]. intros P L.
  destruct (pending w) as [|c' src|c' canvas|c' blob] eqn:PW;
    [discriminate P| | |]; cbn in P; injection P as ->;
    destruct ev as [iw ih| |blob'| |];
    unfold aux.dispatch; rewrite PW;
    try (exists (Normal tt), w; split; [reflexivity|];
         split; [discriminate|]; left; rewrite PW; now repeat split);
    unfold bind at 1, set_pending; cbn [heap pending log];
    cbn [c_data c_pcb c_meta c_format c_quality c_x c_y c_width c_height].
  - (* onload *)
    rewrite drawSvg_eq. cbv zeta.
    set (img := {| img_src := src; img_width := iw; img_height := ih |}).
    set (canvas := canvas_for cwidth cheight img).
    set (scaled := scaling_for cwidth cheight).
    set (W := {| heap := heap w; pending := Idle; log := log w |}).
    destruct (getContext_2d host canvas);
      [destruct (drawImage_throws host canvas img cx cy scaled);
       [|destruct (toBlob_throws host canvas (aux.sformat cformat)
                                 cquality)]|].
    + edge_fails
        (logged [EvCreateCanvas; EvDrawImage canvas img cx cy scaled] W)
      cpcb cmeta Error.CanvasDrawingFailed cb L.
    + edge_fails
        (logged [EvCreateCanvas; EvDrawImage canvas img cx cy scaled;
                 EvToBlob canvas (aux.sformat cformat) cquality] W)
      cpcb cmeta Error.CanvasDrawingFailed cb L.
    + eexists _, _. split; [reflexivity|]. split; [discriminate|]. left.
      cbn [heap pending log closure_of]. split; [reflexivity|].
      split; [reflexivity|]. unfold callbacks. now rewrite omap_app, app_nil_r.
    + edge_fails (logged [EvCreateCanvas] W)
      cpcb cmeta Error.CanvasDrawingFailed cb L.
  - (* onerror *)
    edge_fails {| heap := heap w; pending := Idle; log := log w |}
      cpcb cmeta Error.ImgLoadingFailed cb L.
  - (* the blob callback *)
    unfold aux.processBlob. destruct blob' as [bytes|].
    + eexists _, _. split; [reflexivity|]. split; [discriminate|]. left.
      now repeat split.
    + edge_fails {| heap := heap w; pending := Idle; log := log w |}
      cpcb cmeta Error.BlobExportFailed cb L.
  - (* the bytes are read *)
    destruct (loadImage_edge {| heap := heap w; pending := Idle;
                                log := log w |} cpcb cmeta blob cb L)
      as (w' & img & E & P' & C & H & _).
    exists (Normal tt), w'. split; [exact E|]. split; [discriminate|]. right.
    split; [exact P'|]. exists img, (Some blob), Error.None.
    split; [exact C | exact H].
  - (* the read is rejected *)
    unfold aux.onRejected.
    edge_fails {| heap := heap w; pending := Idle; log := log w |}
      cpcb cmeta Error.BlobExportFailed cb L.
Qed.

End Steps.

(** X7.  A continuation works for its own request only: whatever event it is
    given on a heap where its handle lives, it calls the callback at most
    once and then with the metadata it closed over, it leaves every other
    address of the heap as it was, and a request that stays pending keeps
    its handle and its closure. *)
Theorem dispatch_stays_within_its_request (host : Host) (ev : HostEvent)
  (w : World) (c : Closure) (cb : Callback) :
  closure_of (pending w) = Some c ->
  heap w !! c_pcb c = Some (CallbackCopy cb) ->
  exists o w',
    aux.dispatch host ev w = (o, w')
    /\ o <> Undefined
    /\ (forall p, p <> c_pcb c -> heap w' !! p = heap w !! p)
    /\ ((closure_of (pending w') = Some c
         /\ heap w' !! c_pcb c = Some (CallbackCopy cb)
         /\ callbacks (log w') = callbacks (log w))
        \/ (pending w' = Idle
            /\ exists img seen err,
                 callbacks (log w')
                 = (callbacks (log w)
                    ++ [(img, seen, err, c_meta c)])%list)).
Proof.
  intros P L.
  destruct (dispatch_step host ev w c cb P L)
    as (o & w' & E & NU & [(P' & H & C)|(I & img & seen & err & C & H)]);
    exists o, w'; (split; [exact E|]); (split; [exact NU|]).
  - rewrite H. split; [reflexivity|]. left. auto.
  - split.
    + intros p Hp. rewrite H.
      destruct (cb img seen err (c_meta c)); [|reflexivity].
      now apply lookup_delete_ne.
    + right. split; [exact I|]. now exists img, seen, err.
Qed.

Lemma dispatch_stays_within_its_request_witness :
  closure_of (pending (exporting_world returning)) = Some sample_closure
  /\ heap (exporting_world returning) !! c_pcb sample_closure
     = Some (CallbackCopy returning)
  /\ exists o w',
       aux.dispatch sample_host (BlobCallback Datatypes.None)
                    (exporting_world returning) = (o, w')
       /\ o <> Undefined.
Proof.
  split; [reflexivity|]. split; [reflexivity|].
  destruct (dispatch_stays_within_its_request sample_host
              (BlobCallback Datatypes.None) (exporting_world returning)
              sample_closure returning eq_refl eq_refl)
    as (o & w' & E & NU & _).
  exists o, w'. auto.
Defined.

Section Finished.
Variable r : Request.
Variable h : gmap N cell.

(** The error of a finished request tells how far the pipeline went. *)
Lemma phase_error_stages (w : World) :
  phase r h w -> pending w = Idle ->
  exists err,
    executions (log w) = [err]
    /\ match err with
       | Error.None =>
         stages (log w) = [Encoding; Loading; Drawing; Exporting; Done]
       | Error.NoInputData => False
       | Error.UriEncodingFailed =>
         stages (log w) = [Encoding; Failed Error.UriEncodingFailed]
       | Error.ImgLoadingFailed =>
         stages (log w)
         = [Encoding; Loading; Failed Error.ImgLoadingFailed]
       | Error.CanvasDrawingFailed =>
         stages (log w)
         = [Encoding; Loading; Drawing; Failed Error.CanvasDrawingFailed]
         \/ stages (log w)
            = [Encoding; Loading; Drawing; Exporting;
               Failed Error.CanvasDrawingFailed]
       | Error.BlobExportFailed =>
         stages (log w)
         = [Encoding; Loading; Drawing; Exporting;
            Failed Error.BlobExportFailed]
       end.
Proof.
  intros P I.
  destruct P as [| | |pre err k F K|uri canvas img scaled blob on_heap k O K];
    try discriminate I.
  - exists err. destruct F, k; cbn; auto.
  - exists Error.None. destruct k; cbn; auto.
Qed.

(** The alert is shown on the success edge only. *)
Lemma phase_alert (w : World) :
  phase r h w -> pending w = Idle ->
  exists img seen err,
    callbacks (log w) = [(img, seen, err, meta r)]
    /\ (In EvAlert (log w)
        <-> err = Error.None /\ cb r img seen err (meta r) = Throws).
Proof.
  intros P I.
  destruct P as [| | |pre err k F K|uri canvas img scaled blob on_heap k O K];
    try discriminate I.
  - exists string_view_default, (Some []), err. rewrite <- K.
    destruct F, k; (split; [reflexivity|]); cbn;
      intuition discriminate.
  - exists (view_of on_heap (chars_size blob)), (Some blob), Error.None.
    rewrite <- K.
    destruct k; (split; [reflexivity|]); cbn; intuition discriminate.
Qed.

(** Every call of a request carries the arguments of the request. *)
Lemma phase_arguments (w : World) :
  phase r h w ->
  Forall (fun ev =>
            match ev with
            | EvEncodeURIComponent s => s = aux.UTF8ToString (svg r)
            | EvDrawImage _ _ dx dy _ => dx = x r /\ dy = y r
            | EvToBlob _ fmt q =>
              fmt = aux.UTF8ToString_c_str (format r) /\ q = quality r
            | EvExecCb pcb _ _ _ m => pcb = handle h /\ m = meta r
            | EvCallback _ _ _ m => m = meta r
            | EvNew pcb => pcb = handle h
            | EvDelete pcb => pcb = handle h
            | _ => True
            end) (log w).
Proof.
  intros P.
  destruct P as [| | |pre err k F K|uri canvas img scaled blob on_heap k O K];
    cbn [log].
  - repeat constructor.
  - repeat constructor.
  - repeat constructor.
  - destruct F, k; repeat constructor.
  - destruct k; repeat constructor.
Qed.

End Finished.

(** X8.  The error handed to the callback of a request with input tells
    how far the pipeline went before it ended: [Error::None] after all of
    encoding, loading, drawing and exporting, [UriEncodingFailed] after
    encoding alone, [ImgLoadingFailed] after loading, [BlobExportFailed]
    after exporting, [CanvasDrawingFailed] after drawing or, when it is
    [toBlob] that throws, after exporting was entered; [NoInputData] is
    never the error of such a request. *)
Theorem error_tells_the_stage_reached (host : Host) (r : Request)
  (h : gmap N cell) (evs : list HostEvent) :
  has_input (svg r) = true ->
  exists w,
    request host r h evs = Some w
    /\ (pending w = Idle ->
        exists err,
          executions (log w) = [err]
          /\ err <> Error.NoInputData
          /\ (err = Error.None
              <-> stages (log w)
                  = [Encoding; Loading; Drawing; Exporting; Done])
          /\ (err = Error.UriEncodingFailed
              <-> stages (log w) = [Encoding; Failed err])
          /\ (err = Error.ImgLoadingFailed
              <-> stages (log w) = [Encoding; Loading; Failed err])
          /\ (err = Error.BlobExportFailed
              <-> stages (log w)
                  = [Encoding; Loading; Drawing; Exporting; Failed err]
                  /\ err <> Error.CanvasDrawingFailed)
          /\ (err = Error.CanvasDrawingFailed
              <-> (stages (log w)
                   = [Encoding; Loading; Drawing; Failed err]
                   \/ (stages (log w)
                       = [Encoding; Loading; Drawing; Exporting; Failed err]
                       /\ err <> Error.BlobExportFailed)))).
Proof.
  intros V. destruct (request_phase host r h evs V) as (w & E & P).
  exists w. split; [exact E|]. intros I.
  destruct (phase_error_stages r h w P I) as (err & X & S).
  exists err. split; [exact X|].
  destruct err; try contradiction;
    match type of S with
    | _ \/ _ => destruct S as [S|S]
    | _ => idtac
    end;
    rewrite S;
    (split; [discriminate|]);
    repeat split; try discriminate; try congruence; auto;
    intros; repeat match goal with
                   | H : _ /\ _ |- _ => destruct H
                   | H : _ \/ _ |- _ => destruct H
                   end; try discriminate; try congruence.
Qed.

Lemma error_tells_the_stage_reached_witness :
  has_input (svg (sample_request returning)) = true
  /\ exists w,
       request sample_host (sample_request returning) ∅ sample_schedule
       = Some w
       /\ exists err,
            executions (log w) = [err]
            /\ (err = Error.None
                <-> stages (log w)
                    = [Encoding; Loading; Drawing; Exporting; Done]).
Proof.
  split; [reflexivity|].
  destruct (error_tells_the_stage_reached
              sample_host (sample_request returning) ∅ sample_schedule
              eq_refl) as (w & E & F).
  exists w. split; [exact E|].
  assert (I : pending w = Idle).
  { vm_compute in E. injection E as <-. reflexivity. }
  destruct (F I) as (err & X & _ & S & _).
  exists err. split; [exact X | exact S].
Defined.

(** X9.  The alert of the page is shown for a request with input exactly
    when its callback throws on the success edge; a callback that throws on
    a failure edge is not reported by an alert, and a callback that returns
    never is. *)
Theorem alert_only_when_the_success_callback_throws (host : Host)
  (r : Request) (h : gmap N cell) (evs : list HostEvent) :
  has_input (svg r) = true ->
  exists w,
    request host r h evs = Some w
    /\ (pending w <> Idle -> ~ In EvAlert (log w))
    /\ (pending w = Idle ->
        exists img seen err,
          callbacks (log w) = [(img, seen, err, meta r)]
          /\ (In EvAlert (log w)
              <-> err = Error.None
                  /\ cb r img seen err (meta r) = Throws)).
Proof.
  intros V. destruct (request_phase host r h evs V) as (w & E & P).
  exists w. split; [exact E|]. split.
  - intros NI A.
    destruct P as [| | |pre err k F K|uri canvas img scaled blob on_heap k O K];
      try (now apply NI); cbn in A; intuition discriminate.
  - intros I. exact (phase_alert r h w P I).
Qed.

Lemma alert_only_when_the_success_callback_throws_witness :
  has_input (svg (sample_request throwing)) = true
  /\ exists w,
       request sample_host (sample_request throwing) ∅ sample_schedule
       = Some w
       /\ (pending w = Idle -> In EvAlert (log w)).
Proof.
  split; [reflexivity|].
  destruct (alert_only_when_the_success_callback_throws
              sample_host (sample_request throwing) ∅ sample_schedule
              eq_refl) as (w & E & _ & F).
  exists w. split; [exact E|]. intros I.
  destruct (F I) as (img & seen & err & C & A).
  apply A. vm_compute in E. injection E as <-.
  vm_compute in C. injection C as <- <- <-. split; reflexivity.
Defined.

(** X10.  Every call a request with input makes carries the arguments of
    the request: [encodeURIComponent] gets the markup up to its first NUL,
    [drawImage] the offsets [x] and [y], [toBlob] the quality and the
    format up to its first NUL (the JS string [sformat]; a format that
    holds no NUL is passed whole), and [ExecCb], the callback, [new] and
    [delete] the one handle and the [meta] of the request. *)
Theorem calls_carry_the_arguments_of_the_request (host : Host)
  (r : Request) (h : gmap N cell) (evs : list HostEvent) :
  has_input (svg r) = true ->
  exists w,
    request host r h evs = Some w
    /\ (forall ev, In ev (log w) ->
          match ev with
          | EvEncodeURIComponent s => s = aux.UTF8ToString (svg r)
          | EvDrawImage _ _ dx dy _ => dx = x r /\ dy = y r
          | EvToBlob _ fmt q =>
            fmt = aux.UTF8ToString_c_str (format r) /\ q = quality r
          | EvExecCb pcb _ _ _ m => pcb = handle h /\ m = meta r
          | EvCallback _ _ _ m => m = meta r
          | EvNew pcb => pcb = handle h
          | EvDelete pcb => pcb = handle h
          | _ => True
          end)
    /\ (exists rest,
          format r = (aux.UTF8ToString_c_str (format r) ++ rest)%string
          /\ (rest = EmptyString
              \/ exists rest', rest = String "000"%char rest'))
    /\ (forall i, String.get i (aux.UTF8ToString_c_str (format r))
                  <> Some "000"%char).
Proof.
  intros V. destruct (request_phase host r h evs V) as (w & E & P).
  exists w. split; [exact E|]. split; [|split].
  - apply Forall_forall. exact (phase_arguments r h w P).
  - induction (format r) as [|c s (rest & D & R)].
    + exists EmptyString. auto.
    + cbn [aux.UTF8ToString_c_str]. destruct (Ascii.eqb_spec c "000"%char).
      * subst c. exists (String "000"%char s). split; [reflexivity|].
        right. eauto.
      * exists rest. split; [|exact R]. rewrite append_cons. now f_equal.
  - induction (format r) as [|c s IH]; intros i.
    + destruct i; discriminate.
    + cbn [aux.UTF8ToString_c_str]. destruct (Ascii.eqb_spec c "000"%char).
      * destruct i; discriminate.
      * destruct i as [|i]; cbn [String.get]; [congruence | apply IH].
Qed.

Lemma calls_carry_the_arguments_of_the_request_witness :
  has_input (svg (cut_format_request returning)) = true
  /\ exists w,
       request sample_host (cut_format_request returning) ∅ sample_schedule
       = Some w
       /\ forall canvas fmt q,
            In (EvToBlob canvas fmt q) (log w) ->
            fmt = "image/jpeg"%string /\ q = S754_finite false 1 0.
Proof.
  split; [reflexivity|].
  destruct (calls_carry_the_arguments_of_the_request
              sample_host (cut_format_request returning) ∅ sample_schedule
              eq_refl) as (w & E & F & _).
  exists w. split; [exact E|]. intros canvas fmt q I. exact (F _ I).
Defined.

(** X11.  [UTF8ToString] keeps the longest prefix without a NUL: the result
    holds no NUL, the data is the result followed by nothing or by a NUL
    and the rest, data without a NUL is kept whole, and reading the result
    again changes nothing. *)
Theorem UTF8ToString_stops_at_the_first_NUL (data : chars) :
  ~ In x00 (aux.UTF8ToString data)
  /\ (exists rest,
        data = (aux.UTF8ToString data ++ rest)%list
        /\ (rest = [] \/ exists rest', rest = x00 :: rest'))
  /\ (~ In x00 data <-> aux.UTF8ToString data = data)
  /\ aux.UTF8ToString (aux.UTF8ToString data) = aux.UTF8ToString data
  /\ (has_input data = true <-> aux.UTF8ToString data <> []).
Proof.
  assert (Z : forall c, Byte.eqb c x00 = true <-> c = x00).
  { intros c. split; [apply Byte.byte_dec_bl | apply Byte.byte_dec_lb]. }
  split; [|split; [|split; [|split]]].
  - induction data as [|c data IH]; cbn; [tauto|].
    destruct (Byte.eqb c x00) eqn:K; cbn; [tauto|].
    intros [->|I]; [|tauto].
    assert (T : Byte.eqb x00 x00 = true) by reflexivity. congruence.
  - induction data as [|c data (rest & D & R)]; cbn.
    + exists []. auto.
    + destruct (Byte.eqb c x00) eqn:K.
      * apply Z in K as ->. exists (x00 :: data). split; [reflexivity|].
        right. eauto.
      * exists rest. split; [|exact R]. cbn. now rewrite <- D.
  - induction data as [|c data IH]; cbn; [tauto|].
    destruct (Byte.eqb c x00) eqn:K.
    + apply Z in K as ->. split; [intros N; exfalso; auto | discriminate].
    + split.
      * intros N. f_equal. apply IH. tauto.
      * intros Q. injection Q as Q. apply IH in Q.
        intros [->|I]; [|tauto].
        assert (T : Byte.eqb x00 x00 = true) by reflexivity. congruence.
  - induction data as [|c data IH]; cbn; [reflexivity|].
    destruct (Byte.eqb c x00) eqn:K; cbn; [reflexivity|].
    now rewrite K, IH.
  - destruct data as [|c data]; cbn; [split; [discriminate|congruence]|].
    destruct (Byte.eqb c x00); cbn; split; congruence.
Qed.

(** X12.  A handle serves one call of [ExecCb]: after a call whose callback
    returns the handle is gone from the heap, and any further call through
    it, like a call through an address that holds no callback, is outside
    the defined behaviour and runs no callback. *)
Theorem ExecCb_consumes_the_handle (w : World) (pcb data : ptr) (size : N)
  (err : Error.t) (meta : ptr) (cb : Callback) :
  heap w !! pcb = Some (CallbackCopy cb) ->
  cb (view_of data size) (view_chars (heap w) (view_of data size)) err meta
  = Returns ->
  exists w',
    aux.ExecCb pcb data size err meta w = (Normal tt, w')
    /\ heap w' = delete pcb (heap w)
    /\ destroyed (log w') = (destroyed (log w) ++ [pcb])%list
    /\ forall data' size' err' meta',
         aux.ExecCb pcb data' size' err' meta' w' = (Undefined, w').
Proof.
  intros L K. rewrite (ExecCb_live _ _ _ _ _ _ cb L). cbv zeta. rewrite K.
  eexists. split; [reflexivity|]. split; [reflexivity|]. split.
  - unfold destroyed. cbn [log]. rewrite omap_app. reflexivity.
  - intros data' size' err' meta'. unfold aux.ExecCb. cbn [heap].
    now rewrite lookup_delete_eq.
Qed.

Lemma ExecCb_consumes_the_handle_witness :
  exists w',
    aux.ExecCb 1 0 0 Error.ImgLoadingFailed 7 (sample_world returning)
    = (Normal tt, w')
    /\ heap w' = delete 1 (heap (sample_world returning))
    /\ aux.ExecCb 1 0 0 Error.None 7 w' = (Undefined, w').
Proof.
  destruct (ExecCb_consumes_the_handle
              (sample_world returning) 1 0 0 Error.ImgLoadingFailed 7
              returning eq_refl eq_refl) as (w' & E & H & _ & U).
  exists w'. split; [exact E|]. split; [exact H|]. apply U.
Defined.

(* ====================================================================== *)
(** * Several requests on one page *)
(* ====================================================================== *)

Section Page.
Variable host : Host.

(** What one call of [raster::SvgToImage] does, on any heap. *)
Lemma issue_cases (r : Request) (W : World) :
  exists o w,
    issue host r W = (o, w)
    /\ o <> Undefined
    /\ if has_input (svg r)
       then
         match encodeURIComponent host (aux.UTF8ToString (svg r)) with
         | Some enc =>
           o = Normal tt
           /\ pending w
              = ImgPending
                  (aux.closure (svg r) (fresh_addr (heap W)) (meta r)
                               (format r) (quality r) (x r) (y r)
                               (width r) (height r))
                  ("data:image/svg+xml;charset=utf8," ++ enc)%string
           /\ heap w = <[fresh_addr (heap W) := CallbackCopy (cb r)]> (heap W)
           /\ callbacks (log w) = callbacks (log W)
         | Datatypes.None =>
           pending w = pending W
           /\ callbacks (log w)
              = (callbacks (log W)
                 ++ [(string_view_default, Some [],
                      Error.UriEncodingFailed, meta r)])%list
           /\ (o = Exception
               <-> cb r string_view_default (Some [])
                        Error.UriEncodingFailed (meta r) = Throws)
           /\ heap w
              = match cb r string_view_default (Some [])
                         Error.UriEncodingFailed (meta r) with
                | Returns => heap W
                | Throws =>
                  <[fresh_addr (heap W) := CallbackCopy (cb r)]> (heap W)
                end
         end
       else
         pending w = pending W
         /\ heap w = heap W
         /\ callbacks (log w)
            = (callbacks (log W)
               ++ [(string_view_default, Some [],
                    Error.NoInputData, meta r)])%list
         /\ (o = Exception
             <-> cb r string_view_default (Some [])
                      Error.NoInputData (meta r) = Throws).
Proof.
  assert (NoInput :
    exists o w,
      call (cb r) string_view_default Error.NoInputData (meta r) W = (o, w)
      /\ o <> Undefined
      /\ pending w = pending W
      /\ heap w = heap W
      /\ callbacks (log w)
         = (callbacks (log W)
            ++ [(string_view_default, Some [],
                 Error.NoInputData, meta r)])%list
      /\ (o = Exception
          <-> cb r string_view_default (Some [])
                   Error.NoInputData (meta r) = Throws)).
  { unfold call, emit. cbv zeta. cbn [heap pending log].
    change (view_chars (heap W) string_view_default) with (Some (@nil byte)).
    destruct (cb r string_view_default (Some []) Error.NoInputData (meta r));
      eexists _, _; (split; [reflexivity|]); (split; [discriminate|]);
      cbn [heap pending log]; (split; [reflexivity|]);
      (split; [reflexivity|]);
      (split; [unfold callbacks; now rewrite omap_app|]);
      split; congruence. }
  unfold issue, SvgToImage.
  destruct (svg r) as [|c s] eqn:S; cbn [has_input]; [exact NoInput|].
  destruct (Byte.eqb c x00) eqn:Z; cbn [negb]; [exact NoInput|].
  clear NoInput.
  unfold bind, new_Callback, bind, set_heap, emit, ret.
  cbn [heap pending log]. rewrite SvgToImage_eq. cbv zeta.
  cbn [heap pending log].
  destruct (encodeURIComponent host (aux.UTF8ToString (c :: s)))
    as [enc|] eqn:E.
  - eexists _, _. split; [reflexivity|]. split; [discriminate|].
    cbn [heap pending log]. split; [reflexivity|]. split; [reflexivity|].
    split; [reflexivity|]. unfold callbacks. rewrite !omap_app. cbn.
    now rewrite !app_nil_r.
  - set (pcb := fresh_addr (heap W)).
    set (W' := logged _ _).
    assert (L : heap W' !! pcb = Some (CallbackCopy (cb r)))
      by apply lookup_insert_eq.
    destruct (failed_edge W' pcb (meta r) Error.UriEncodingFailed (cb r) L)
      as (o & w & F & NU & X & P & C & H & _).
    change (Error.code Error.UriEncodingFailed)
      with aux.RasterError.UriEncodingFailed in F.
    rewrite F. exists o, w.
    split; [destruct o as [[]| |]; try reflexivity; now elim NU|].
    split; [exact NU|]. split; [exact P|].
    split; [|split; [exact X|]].
    + rewrite C. unfold W', callbacks, logged. cbn [log].
      rewrite !omap_app. cbn. now rewrite !app_nil_r.
    + rewrite H. unfold W', logged. cbn [heap].
      destruct (cb r _ _ _ _); [|reflexivity].
      apply delete_insert_id, fresh_addr_free.
Qed.

(** The same, as much of it as the page needs. *)
Lemma issue_step (r : Request) (W : World) :
  exists o w,
    issue host r W = (o, w)
    /\ o <> Undefined
    /\ ((exists c uri,
           pending w = ImgPending c uri
           /\ c_pcb c = fresh_addr (heap W)
           /\ c_meta c = meta r
           /\ heap w = <[fresh_addr (heap W) := CallbackCopy (cb r)]> (heap W)
           /\ callbacks (log w) = callbacks (log W))
        \/ (pending w = pending W
            /\ (exists img seen err,
                  callbacks (log w)
                  = (callbacks (log W) ++ [(img, seen, err, meta r)])%list)
            /\ (heap w = heap W
                \/ heap w
                   = <[fresh_addr (heap W) := CallbackCopy (cb r)]>
                       (heap W)))).
Proof.
  destruct (issue_cases r W) as (o & w & E & NU & C).
  exists o, w. split; [exact E|]. split; [exact NU|].
  destruct (has_input (svg r));
    [destruct (encodeURIComponent host (aux.UTF8ToString (svg r)))|].
  - destruct C as (_ & P & H & C). left. eexists _, _.
    split; [exact P|]. now repeat split.
  - destruct C as (P & C & _ & H). right. split; [exact P|].
    split; [eauto|]. rewrite H. destruct (cb r _ _ _ _); auto.
  - destruct C as (P & H & C & _). right. split; [exact P|].
    split; [eauto|]. auto.
Qed.

Lemma finished_metas_snoc (rs : list Request) (ps : list Pending)
  (r : Request) (p : Pending) :
  List.length ps = List.length rs ->
  finished_metas (rs ++ [r]) (ps ++ [p])
  = (finished_metas rs ps
     ++ match p with Idle => [meta r] | _ => [] end)%list.
Proof.
  revert ps. induction rs as [|r0 rs IH]; intros [|p0 ps] L;
    try discriminate L.
  - destruct p; reflexivity.
  - cbn in L. injection L as L. cbn [app finished_metas].
    rewrite (IH ps L). destruct p0; reflexivity.
Qed.

Lemma finished_metas_insert_pending (rs : list Request)
  (ps : list Pending) (i : nat) (p p' : Pending) (c c' : Closure) :
  ps !! i = Some p -> closure_of p = Some c -> closure_of p' = Some c' ->
  finished_metas rs (<[i := p']> ps) = finished_metas rs ps.
Proof.
  revert ps i. induction rs as [|r0 rs IH]; intros [|p0 ps] [|i] L C C';
    try discriminate L; try reflexivity.
  - cbn in L. injection L as ->. cbn.
    destruct p, p'; try discriminate; reflexivity.
  - cbn in L. change (<[S i := p']> (p0 :: ps)) with (p0 :: <[i := p']> ps).
    cbn [finished_metas]. rewrite (IH ps i L C C'). reflexivity.
Qed.

Lemma finished_metas_insert_idle (rs : list Request) (ps : list Pending)
  (i : nat) (p : Pending) (c : Closure) (r : Request) :
  ps !! i = Some p -> closure_of p = Some c -> rs !! i = Some r ->
  finished_metas rs (<[i := Idle]> ps) ≡ₚ meta r :: finished_metas rs ps.
Proof.
  revert ps i. induction rs as [|r0 rs IH]; intros [|p0 ps] [|i] L C R;
    try discriminate L; try discriminate R.
  - cbn in L, R. injection L as ->. injection R as ->. cbn.
    destruct p; try discriminate; reflexivity.
  - cbn in L, R.
    change (<[S i := Idle]> (p0 :: ps)) with (p0 :: <[i := Idle]> ps).
    cbn [finished_metas]. pose proof (IH ps i L C R) as Q.
    destruct p0; [|exact Q..]. rewrite Q. apply Permutation_swap.
Qed.

Lemma callback_metas_same (l l' : list Event) :
  callbacks l' = callbacks l -> callback_metas l' = callback_metas l.
Proof. unfold callback_metas. now intros ->. Qed.

Lemma callback_metas_more (l l' : list Event) (img : string_view)
  (seen : option chars) (err : Error.t) (m : ptr) :
  callbacks l' = (callbacks l ++ [(img, seen, err, m)])%list ->
  callback_metas l' = (callback_metas l ++ [m])%list.
Proof. unfold callback_metas. intros ->. now rewrite map_app. Qed.

Lemma not_awaited_when_idle (ev : HostEvent) : awaits Idle ev = false.
Proof. destruct ev; reflexivity. Qed.

(** One action keeps the page as it should be. *)
Lemma tab_step_inv (a : TabAction) (rs : list Request) (t : Tab) :
  tab_inv rs t ->
  exists t', tab_step host a t = Some t'
             /\ tab_inv (rs ++ issued [a]) t'.
Proof.
  destruct t as [hp ps lg]. unfold tab_inv. cbn [tab_heap tab_pending tab_log].
  intros (Len & Live & Apart & Calls).
  destruct a as [r|i ev]; unfold tab_step;
    cbn [tab_heap tab_pending tab_log issued omap].
  - (* a new request *)
    change (issued [Issue r]) with [r].
    destruct (issue_step r {| heap := hp; pending := Idle; log := lg |})
      as (o & w & E & NU & C).
    rewrite E. cbn [heap pending log] in C.
    exists {| tab_heap := heap w; tab_pending := ps ++ [pending w];
              tab_log := log w |}.
    split; [destruct o as [[]| |]; try reflexivity; now elim NU|].
    cbn [tab_heap tab_pending tab_log].
    assert (Old : forall c r0,
              hp !! c_pcb c = Some (CallbackCopy (cb r0)) ->
              <[fresh_addr hp := CallbackCopy (cb r)]> hp !! c_pcb c
              = Some (CallbackCopy (cb r0))).
    { intros c r0 L. rewrite lookup_insert_ne; [exact L|].
      intros Q. rewrite <- Q, fresh_addr_free in L. discriminate. }
    destruct C as [(c0 & uri & P & Pcb & Meta & H & C)
                  |(P & (img & seen & err & C) & H)].
    + rewrite P, H. split; [rewrite !length_app; cbn; lia|].
      split; [|split].
      * intros i p c Pi Cp. apply lookup_app_Some in Pi as [Pi|(Ge & Pi)].
        -- destruct (Live i p c Pi Cp) as (r0 & R & M & L).
           exists r0. split; [now apply lookup_app_l_Some|].
           split; [exact M | now apply Old].
        -- destruct (i - List.length ps)%nat eqn:D; [|discriminate Pi].
           cbn in Pi. injection Pi as <-. cbn in Cp. injection Cp as <-.
           exists r. assert (i = List.length rs) as -> by lia.
           split; [now rewrite lookup_app_r, Nat.sub_diag by lia|].
           split; [exact Meta|]. rewrite Pcb. apply lookup_insert_eq.
      * intros i j p q c d Pi Pj Cp Cq Same.
        apply lookup_app_Some in Pi as [Pi|(Gi & Pi)];
          apply lookup_app_Some in Pj as [Pj|(Gj & Pj)].
        -- exact (Apart i j p q c d Pi Pj Cp Cq Same).
        -- destruct (j - List.length ps)%nat; [|discriminate Pj].
           cbn in Pj. injection Pj as <-. cbn in Cq. injection Cq as <-.
           destruct (Live i p c Pi Cp) as (r0 & _ & _ & L).
           rewrite Same, Pcb, fresh_addr_free in L. discriminate.
        -- destruct (i - List.length ps)%nat; [|discriminate Pi].
           cbn in Pi. injection Pi as <-. cbn in Cp. injection Cp as <-.
           destruct (Live j q d Pj Cq) as (r0 & _ & _ & L).
           rewrite <- Same, Pcb, fresh_addr_free in L. discriminate.
        -- destruct (i - List.length ps)%nat eqn:Di; [|discriminate Pi].
           destruct (j - List.length ps)%nat eqn:Dj; [|discriminate Pj].
           lia.
      * rewrite (callback_metas_same _ _ C).
        rewrite finished_metas_snoc by exact Len. now rewrite app_nil_r.
    + rewrite P. split; [rewrite !length_app; cbn; lia|].
      split; [|split].
      * intros i p c Pi Cp. apply lookup_app_Some in Pi as [Pi|(Ge & Pi)].
        -- destruct (Live i p c Pi Cp) as (r0 & R & M & L).
           exists r0. split; [now apply lookup_app_l_Some|].
           split; [exact M|]. destruct H as [-> | ->]; [exact L|].
           now apply Old.
        -- destruct (i - List.length ps)%nat; [|discriminate Pi].
           cbn in Pi. injection Pi as <-. discriminate Cp.
      * intros i j p q c d Pi Pj Cp Cq Same.
        apply lookup_app_Some in Pi as [Pi|(Gi & Pi)];
          apply lookup_app_Some in Pj as [Pj|(Gj & Pj)].
        -- exact (Apart i j p q c d Pi Pj Cp Cq Same).
        -- destruct (j - List.length ps)%nat; [|discriminate Pj].
           cbn in Pj. injection Pj as <-. discriminate Cq.
        -- destruct (i - List.length ps)%nat; [|discriminate Pi].
           cbn in Pi. injection Pi as <-. discriminate Cp.
        -- destruct (i - List.length ps)%nat; [|discriminate Pi].
           cbn in Pi. injection Pi as <-. discriminate Cp.
      * rewrite (callback_metas_more _ _ _ _ _ _ C).
        rewrite finished_metas_snoc by exact Len. now rewrite Calls.
  - (* an event for the slot [i] *)
    change (issued [Deliver i ev]) with (@nil Request). rewrite app_nil_r.
    destruct (ps !! i) as [p|] eqn:Pi; [|exists {| tab_heap := hp;
      tab_pending := ps; tab_log := lg |}; now repeat split].
    destruct (closure_of p) as [c|] eqn:Cp.
    + destruct (Live i p c Pi Cp) as (r & R & M & L).
      destruct (dispatch_step host ev
                  {| heap := hp; pending := p; log := lg |} c (cb r) Cp L)
        as (o & w & E & NU & C).
      rewrite E. cbn [heap pending log] in C.
      exists {| tab_heap := heap w; tab_pending := <[i := pending w]> ps;
                tab_log := log w |}.
      split; [destruct o as [[]| |]; try reflexivity; now elim NU|].
      cbn [tab_heap tab_pending tab_log].
      split; [now rewrite length_insert|].
      destruct C as [(Cw & H & C)|(Pw & img & seen & err & C & H)].
      * assert (Back : forall j q d,
                  <[i := pending w]> ps !! j = Some q ->
                  closure_of q = Some d ->
                  exists q0, ps !! j = Some q0 /\ closure_of q0 = Some d).
        { intros j q d Pj Cq.
          apply list_lookup_insert_Some in Pj as [(<- & <- & _)|(_ & Pj)].
          - exists p. split; [exact Pi | congruence].
          - eauto. }
        rewrite H. split; [|split].
        -- intros j q d Pj Cq.
           destruct (Back j q d Pj Cq) as (q0 & Pj0 & Cq0).
           exact (Live j q0 d Pj0 Cq0).
        -- intros j k q q' d d' Pj Pk Cq Cq' Same.
           destruct (Back j q d Pj Cq) as (q0 & Pj0 & Cq0).
           destruct (Back k q' d' Pk Cq') as (q0' & Pk0 & Cq0').
           exact (Apart j k q0 q0' d d' Pj0 Pk0 Cq0 Cq0' Same).
        -- rewrite (callback_metas_same _ _ C).
           now rewrite (finished_metas_insert_pending rs ps i p _ c c Pi Cp Cw).
      * assert (Back : forall j q d,
                  <[i := pending w]> ps !! j = Some q ->
                  closure_of q = Some d ->
                  i <> j /\ ps !! j = Some q).
        { intros j q d Pj Cq.
          apply list_lookup_insert_Some in Pj as [(_ & <- & _)|Pj];
            [|exact Pj].
          rewrite Pw in Cq. discriminate. }
        split; [|split].
        -- intros j q d Pj Cq. destruct (Back j q d Pj Cq) as (NE & Pj0).
           destruct (Live j q d Pj0 Cq) as (r0 & R0 & M0 & L0).
           exists r0. split; [exact R0|]. split; [exact M0|]. rewrite H.
           destruct (cb r img seen err (c_meta c)); [|exact L0].
           rewrite lookup_delete_ne; [exact L0|].
           intros Same. apply NE.
           exact (Apart i j p q c d Pi Pj0 Cp Cq Same).
        -- intros j k q q' d d' Pj Pk Cq Cq' Same.
           destruct (Back j q d Pj Cq) as (_ & Pj0).
           destruct (Back k q' d' Pk Cq') as (_ & Pk0).
           exact (Apart j k q q' d d' Pj0 Pk0 Cq Cq' Same).
        -- rewrite (callback_metas_more _ _ _ _ _ _ C), Pw, M.
           rewrite (finished_metas_insert_idle rs ps i p c r Pi Cp R).
           rewrite Calls. symmetry. apply Permutation_cons_append.
    + assert (p = Idle) as -> by (destruct p; [reflexivity|discriminate..]).
      rewrite dispatch_not_awaited by apply not_awaited_when_idle.
      cbn [pending heap log]. rewrite list_insert_id by exact Pi.
      exists {| tab_heap := hp; tab_pending := ps; tab_log := lg |}.
      now repeat split.
Qed.

Lemma tab_run_inv (acts : list TabAction) (rs : list Request) (t : Tab) :
  tab_inv rs t ->
  exists t', tab_run host acts t = Some t'
             /\ tab_inv (rs ++ issued acts) t'.
Proof.
  revert rs t. induction acts as [|a acts IH]; intros rs t I.
  - exists t. split; [reflexivity|]. unfold issued. cbn.
    now rewrite app_nil_r.
  - destruct (tab_step_inv a rs t I) as (t1 & E & I1).
    destruct (IH _ t1 I1) as (t' & E' & I').
    exists t'. cbn [tab_run]. rewrite E. split; [exact E'|].
    replace (rs ++ issued (a :: acts))%list
      with ((rs ++ issued [a]) ++ issued acts)%list; [exact I'|].
    rewrite <- app_assoc. f_equal. unfold issued.
    change (a :: acts) with ([a] ++ acts)%list. now rewrite omap_app.
Qed.

End Page.

(** X13.  What [raster::SvgToImage] has done when it returns, on any heap.
    Either the markup was encoded: the call returns normally, no callback
    has run yet, a fresh handle holds a copy of the callback, and the image
    is left loading the data URI made of the fixed prefix and the encoded
    markup.  Or the callback has run once, inside the call, on an empty
    view: with [NoInputData] and no handle ever made when the markup is
    empty, with [UriEncodingFailed] when the encoding throws; nothing is
    left pending, and the call throws into its caller exactly when that
    callback does, in which case the handle of a failed encoding stays on
    the heap. *)
Theorem SvgToImage_returns_pending_or_called (host : Host) (r : Request)
  (W : World) :
  exists o w,
    issue host r W = (o, w)
    /\ o <> Undefined
    /\ ((o = Normal tt
         /\ callbacks (log w) = callbacks (log W)
         /\ has_input (svg r) = true
         /\ exists enc,
              encodeURIComponent host (aux.UTF8ToString (svg r)) = Some enc
              /\ pending w
                 = ImgPending
                     (aux.closure (svg r) (fresh_addr (heap W)) (meta r)
                                  (format r) (quality r) (x r) (y r)
                                  (width r) (height r))
                     ("data:image/svg+xml;charset=utf8," ++ enc)%string
              /\ heap W !! fresh_addr (heap W) = Datatypes.None
              /\ heap w
                 = <[fresh_addr (heap W) := CallbackCopy (cb r)]> (heap W))
        \/ (exists err,
              callbacks (log w)
              = (callbacks (log W)
                 ++ [(string_view_default, Some [], err, meta r)])%list
              /\ pending w = pending W
              /\ (o = Exception
                  <-> cb r string_view_default (Some []) err (meta r)
                      = Throws)
              /\ ((err = Error.NoInputData
                   /\ has_input (svg r) = false
                   /\ heap w = heap W)
                  \/ (err = Error.UriEncodingFailed
                      /\ has_input (svg r) = true
                      /\ encodeURIComponent host (aux.UTF8ToString (svg r))
                         = Datatypes.None
                      /\ (o <> Exception -> heap w = heap W)
                      /\ (o = Exception ->
                          heap w
                          = <[fresh_addr (heap W) := CallbackCopy (cb r)]>
                              (heap W)))))).
Proof.
  destruct (issue_cases host r W) as (o & w & E & NU & C).
  exists o, w. split; [exact E|]. split; [exact NU|].
  destruct (has_input (svg r));
    [destruct (encodeURIComponent host (aux.UTF8ToString (svg r)))
       as [enc|]|].
  - destruct C as (O & P & H & C). left.
    split; [exact O|]. split; [exact C|]. split; [reflexivity|].
    exists enc. split; [reflexivity|]. split; [exact P|].
    split; [apply fresh_addr_free | exact H].
  - destruct C as (P & C & X & H). right. exists Error.UriEncodingFailed.
    split; [exact C|]. split; [exact P|]. split; [exact X|]. right.
    split; [reflexivity|]. split; [reflexivity|]. split; [reflexivity|].
    rewrite H.
    destruct (cb r string_view_default (Some []) Error.UriEncodingFailed
                 (meta r)); split; intros Q; try reflexivity.
    + apply X in Q. discriminate.
    + exfalso. apply Q, X. reflexivity.
  - destruct C as (P & H & C & X). right. exists Error.NoInputData.
    split; [exact C|]. split; [exact P|]. split; [exact X|]. left.
    now repeat split.
Qed.

(** X14.  Requests that share a page do not disturb one another.  After
    any sequence of calls of [raster::SvgToImage] and of browser events
    fired, in any order, at the continuations of the requests issued so
    far, the run is within the defined behaviour and: every request issued
    has its slot; the [meta] values the callbacks were called with are,
    up to order, those of the finished requests, so each finished request
    was called back once and no pending one was; every pending request
    still holds the [meta] it was issued with and a live handle to its own
    callback; and no two pending requests share a handle. *)
Theorem requests_on_one_page_stay_apart (host : Host) (h : gmap N cell)
  (acts : list TabAction) :
  exists t,
    tab_run host acts {| tab_heap := h; tab_pending := []; tab_log := [] |}
    = Some t
    /\ List.length (tab_pending t) = List.length (issued acts)
    /\ callback_metas (tab_log t)
       ≡ₚ finished_metas (issued acts) (tab_pending t)
    /\ (forall i p c,
          tab_pending t !! i = Some p -> closure_of p = Some c ->
          exists r, issued acts !! i = Some r
                    /\ c_meta c = meta r
                    /\ tab_heap t !! c_pcb c = Some (CallbackCopy (cb r)))
    /\ (forall i j p q c d,
          tab_pending t !! i = Some p -> tab_pending t !! j = Some q ->
          closure_of p = Some c -> closure_of q = Some d ->
          c_pcb c = c_pcb d -> i = j).
Proof.
  destruct (tab_run_inv host acts []
              {| tab_heap := h; tab_pending := []; tab_log := [] |})
    as (t & E & Len & Live & Apart & Calls).
  { unfold tab_inv. cbn. repeat split; try reflexivity; intros;
      discriminate. }
  exists t. cbn [app] in *. auto.
Qed.

(* ====================================================================== *)
(** * What the success edge delivers *)
(* ====================================================================== *)

Section Delivery.
Variable host : Host.

Ltac export_fails W pcb meta err cb L :=
  let o := fresh "o" in
  let w' := fresh "w'" in
  let E := fresh "E" in
  let P' := fresh "P'" in
  let C := fresh "C" in
  let Q := fresh "Q" in
  let I := fresh "I" in
  destruct (failed_edge W pcb meta err cb L)
    as (o & w' & E & _ & _ & P' & C & _);
  exists o, w'; split; [exact E|]; split;
  [intros ? ? Q; rewrite P' in Q; discriminate Q
  |intros ? ? ? I; rewrite C in I; apply in_app_or in I as [I|I];
   [left; revert I; unfold callbacks, logged; cbn [log];
    rewrite ?omap_app; cbn; rewrite ?app_nil_r; exact id
   |destruct I as [I|[]]; inversion I]].

(** One event, as far as the bytes of the export go: the read of a blob
    starts only at the callback of [toBlob], with the bytes the browser
    gave it, and a callback call with [Error::None] is made only when that
    read is fulfilled, on a view of exactly these bytes. *)
Lemma dispatch_export (ev : HostEvent) (w : World) (c : Closure)
  (cb : Callback) :
  closure_of (pending w) = Some c ->
  heap w !! c_pcb c = Some (CallbackCopy cb) ->
  exists o w',
    aux.dispatch host ev w = (o, w')
    /\ (forall c' blob,
          pending w' = ArrayBufferPending c' blob ->
          pending w = ArrayBufferPending c' blob
          \/ exists canvas,
               pending w = BlobPending c' canvas
               /\ ev = BlobCallback (Some blob))
    /\ (forall img seen m,
          In (img, seen, Error.None, m) (callbacks (log w')) ->
          In (img, seen, Error.None, m) (callbacks (log w))
          \/ exists c' blob,
               pending w = ArrayBufferPending c' blob
               /\ ev = ArrayBufferFulfilled
               /\ seen = Some blob
               /\ img = view_of (fresh_addr (heap w)) (chars_size blob)).
Proof.
  destruct c as [cdata cpcb cmeta cformat cquality cx cy cwidth cheight].
  cbn [c_pcb c_meta]. intros P L.
  destruct (pending w) as [|c' src|c' canvas|c' blob] eqn:PW;
    [discriminate P| | |]; cbn in P; injection P as ->;
    destruct ev as [iw ih| |blob'| |];
    unfold aux.dispatch; rewrite PW;
    try (exists (Normal tt), w; split; [reflexivity|];
         split; [intros ? ? Q; rewrite PW in Q; now left | now left]);
    unfold bind at 1, set_pending; cbn [heap pending log];
    cbn [c_data c_pcb c_meta c_format c_quality c_x c_y c_width c_height].
  - (* onload *)
    rewrite drawSvg_eq. cbv zeta.
    set (img := {| img_src := src; img_width := iw; img_height := ih |}).
    set (canvas := canvas_for cwidth cheight img).
    set (scaled := scaling_for cwidth cheight).
    set (W := {| heap := heap w; pending := Idle; log := log w |}).
    destruct (getContext_2d host canvas);
      [destruct (drawImage_throws host canvas img cx cy scaled);
       [|destruct (toBlob_throws host canvas (aux.sformat cformat)
                                 cquality)]|].
    + export_fails
        (logged [EvCreateCanvas; EvDrawImage canvas img cx cy scaled] W)
      cpcb cmeta Error.CanvasDrawingFailed cb L.
    + export_fails
        (logged [EvCreateCanvas; EvDrawImage canvas img cx cy scaled;
                 EvToBlob canvas (aux.sformat cformat) cquality] W)
      cpcb cmeta Error.CanvasDrawingFailed cb L.
    + eexists _, _. split; [reflexivity|]. cbn [heap pending log]. split.
      * intros ? ? Q. discriminate Q.
      * intros ? ? ? I. left. revert I. unfold callbacks.
        rewrite omap_app. cbn. rewrite app_nil_r. exact id.
    + export_fails (logged [EvCreateCanvas] W)
      cpcb cmeta Error.CanvasDrawingFailed cb L.
  - (* onerror *)
    export_fails {| heap := heap w; pending := Idle; log := log w |}
      cpcb cmeta Error.ImgLoadingFailed cb L.
  - (* the blob callback *)
    unfold aux.processBlob. destruct blob' as [bytes|].
    + eexists _, _. split; [reflexivity|]. cbn [heap pending log]. split.
      * intros ? ? Q. injection Q as <- <-. right. now exists canvas.
      * intros ? ? ? I. now left.
    + export_fails {| heap := heap w; pending := Idle; log := log w |}
      cpcb cmeta Error.BlobExportFailed cb L.
  - (* the bytes are read *)
    rewrite (loadImage_live {| heap := heap w; pending := Idle;
                               log := log w |} cpcb cmeta blob cb L).
    cbv zeta. cbn [heap pending log].
    case_completion; eexists _, _; (split; [reflexivity|]);
      cbn [heap pending log];
      (split; [intros ? ? Q; discriminate Q|]);
      intros ? ? ? I; unfold callbacks in I; rewrite omap_app in I;
      apply in_app_or in I as [I|I]; [now left| |now left|];
      cbn in I; destruct I as [I|[]]; injection I as <- <- <-;
      right; eexists _, blob; repeat split; reflexivity.
  - (* the read is rejected *)
    unfold aux.onRejected.
    export_fails {| heap := heap w; pending := Idle; log := log w |}
      cpcb cmeta Error.BlobExportFailed cb L.
Qed.

Variable r : Request.
Variable h : gmap N cell.
Hypothesis V : has_input (svg r) = true.

(** A schedule that ends in [ev] is the schedule before it and one step. *)
Lemma request_snoc (evs : list HostEvent) (ev : HostEvent) (w' : World) :
  request host r h (evs ++ [ev]) = Some w' ->
  exists o w,
    request host r h evs = Some w /\ phase r h w
    /\ aux.dispatch host ev w = (o, w').
Proof.
  destruct (request_phase host r h evs V) as (w & E & P).
  rewrite (request_app host r h evs [ev] w E). cbn [aux.run].
  destruct (aux.dispatch host ev w) as [o w1] eqn:D.
  intros Q. exists o, w. split; [exact E|]. split; [exact P|].
  destruct o; try discriminate Q; now injection Q as <-.
Qed.

Lemma exported_more (evs : list HostEvent) (ev : HostEvent)
  (bytes : chars) :
  exported host r h evs bytes -> exported host r h (evs ++ [ev]) bytes.
Proof.
  intros (before & after & w & c & canvas & -> & E & P).
  exists before, (after ++ [ev])%list, w, c, canvas.
  split; [now rewrite <- app_assoc|]. auto.
Qed.

(** The bytes a request reads, and the bytes its callback is given with
    [Error::None], are bytes the schedule exported to it. *)
Lemma request_exported (evs : list HostEvent) (w : World) :
  request host r h evs = Some w ->
  (forall c blob, pending w = ArrayBufferPending c blob ->
                  exported host r h evs blob)
  /\ (forall img seen m,
        In (img, seen, Error.None, m) (callbacks (log w)) ->
        exists bytes,
          seen = Some bytes
          /\ img = view_of (fresh_addr (in_flight r h)) (chars_size bytes)
          /\ exported host r h evs bytes).
Proof.
  revert w. induction evs as [|ev evs IH] using rev_ind; intros w E.
  - unfold request in E.
    destruct (issue_cases host r (start h)) as (o & w0 & I & NU & C).
    rewrite I, V in *. cbn [aux.run] in E.
    assert (w0 = w) as -> by (destruct o; congruence). clear E.
    destruct (encodeURIComponent host (aux.UTF8ToString (svg r))).
    + destruct C as (_ & P & _ & C). rewrite P, C. cbn. split.
      * intros ? ? Q. discriminate Q.
      * intros ? ? ? [].
    + destruct C as (P & C & _). rewrite P, C. cbn. split.
      * intros ? ? Q. discriminate Q.
      * intros ? ? ? [Q|[]]. inversion Q.
  - destruct (request_snoc evs ev w E) as (o & w0 & E0 & P0 & D).
    destruct (IH w0 E0) as (Reading & Called).
    destruct (closure_of (pending w0)) as [c|] eqn:Cl.
    + assert (NI : pending w0 <> Idle) by (intros Q; now rewrite Q in Cl).
      destruct (phase_pending r h w0 P0 NI) as (C0 & _ & _ & _ & _ & H0).
      assert (c = env r h) as ->.
      { destruct P0; cbn in Cl; congruence. }
      assert (L : heap w0 !! c_pcb (env r h) = Some (CallbackCopy (cb r))).
      { rewrite H0. apply in_flight_handle. }
      destruct (dispatch_export ev w0 (env r h) (cb r) Cl L)
        as (o' & w1 & D' & Reads & Calls).
      rewrite D in D'. injection D' as <- <-. split.
      * intros c blob Q. destruct (Reads c blob Q) as [Q0|(canvas & Q0 & ->)].
        -- apply exported_more, (Reading c blob Q0).
        -- exists evs, [], w0, c, canvas. auto.
      * intros img seen m I.
        destruct (Calls img seen m I) as [I0|(c & blob & Q0 & -> & -> & ->)].
        -- rewrite C0 in I0. destruct I0.
        -- exists blob. split; [reflexivity|]. rewrite H0.
           split; [reflexivity|]. apply exported_more, (Reading c blob Q0).
    + assert (I0 : pending w0 = Idle)
        by (destruct (pending w0); [reflexivity|discriminate..]).
      rewrite dispatch_not_awaited in D
        by (rewrite I0; apply not_awaited_when_idle).
      injection D as _ <-. split.
      * intros c blob Q. rewrite I0 in Q. discriminate Q.
      * intros img seen m I.
        destruct (Called img seen m I) as (bytes & S & G & X).
        exists bytes. split; [exact S|]. split; [exact G|].
        now apply exported_more.
Qed.

End Delivery.

(** C1.  A request with non-empty markup that does not begin with the
    terminator runs under every schedule of browser events; it enters no
    stage twice and fires at most one terminal edge.  Once nothing is
    pending the callback has been called exactly once, with the request's
    metadata and one of six outcomes: [Error::None] with the bytes of the
    export, that is a view of exactly as many bytes as the blob the
    browser handed to the waiting callback of [toBlob], showing these very
    bytes; or one of the five pipeline errors with the empty view.  While a
    continuation is pending the callback has not been called, an event it
    waits for exists, and every such event takes the request strictly
    closer to the end, which is at most three events away. *)
Theorem callback_exactly_once (host : Host) (r : Request) (h : gmap N cell)
  (evs : list HostEvent) :
  has_input (svg r) = true ->
  exists w,
    request host r h evs = Some w
    /\ no_stage_revisited (log w)
    /\ (List.length (executions (log w)) <= 1)%nat
    /\ (pending w = Idle ->
        exists img seen err,
          callbacks (log w) = [(img, seen, err, meta r)]
          /\ executions (log w) = [err]
          /\ ((err = Error.None
               /\ exists bytes,
                    seen = Some bytes
                    /\ exported host r h evs bytes
                    /\ img = view_of (fresh_addr (in_flight r h))
                                     (chars_size bytes)
                    /\ sv_size img = chars_size bytes)
              \/ (err <> Error.None
                  /\ img = string_view_default /\ seen = Some [])))
    /\ (pending w <> Idle ->
        callbacks (log w) = [] /\ executions (log w) = []
        /\ exists ev, awaits (pending w) ev = true)
    /\ (forall ev, awaits (pending w) ev = true ->
        exists w', request host r h (evs ++ [ev]) = Some w'
                   /\ (steps_left (pending w') < steps_left (pending w))%nat)
    /\ (steps_left (pending w) <= 3)%nat.
Proof.
  intros V. destruct (request_phase host r h evs V) as (w & E & P).
  exists w. split; [exact E|]. split; [exact (phase_stages r h w P)|].
  split.
  { destruct (pending w) eqn:I.
    - destruct (phase_idle r h w P I) as (? & ? & ? & _ & -> & _).
      cbn; lia.
    - destruct (phase_pending r h w P) as (_ & -> & _); [congruence|cbn; lia].
    - destruct (phase_pending r h w P) as (_ & -> & _); [congruence|cbn; lia].
    - destruct (phase_pending r h w P) as (_ & -> & _); [congruence|cbn; lia]. }
  split.
  { intros I.
    destruct (phase_idle r h w P I)
      as (img & seen & err & C & X & _ & _ & _ & _ & O).
    exists img, seen, err. split; [exact C|]. split; [exact X|].
    destruct O as [(-> & _)|(NE & _ & -> & -> & _)].
    - left. split; [reflexivity|].
      destruct (request_exported host r h V evs w E) as (_ & Called).
      destruct (Called img seen (meta r)) as (bytes & -> & -> & B);
        [rewrite C; now left|].
      exists bytes. split; [reflexivity|]. split; [exact B|].
      split; [reflexivity|]. rewrite view_of_fresh.
      destruct (N.ltb_spec 0 (chars_size bytes));
        unfold string_view_default; cbn [sv_size]; lia.
    - right. auto. }
  split.
  { intros NI. destruct (phase_pending r h w P NI) as (C & X & _).
    split; [exact C|]. split; [exact X|].
    destruct (pending w); [contradiction| | |].
    - now exists ImgError.
    - now exists (BlobCallback Datatypes.None).
    - now exists ArrayBufferRejected. }
  split.
  { intros ev A.
    destruct (dispatch_phase host r h ev w P A) as (o & w' & D & NU & _ & L).
    exists w'. split; [|exact L].
    rewrite (request_app host r h evs [ev] w E). cbn [aux.run]. rewrite D.
    destruct o; [reflexivity | reflexivity | contradiction]. }
  destruct (pending w); cbn; lia.
Qed.

Lemma callback_exactly_once_witness :
  has_input (svg (sample_request returning)) = true
  /\ exists w,
       request sample_host (sample_request returning) ∅ sample_schedule
       = Some w
       /\ no_stage_revisited (log w)
       /\ (List.length (executions (log w)) <= 1)%nat
       /\ exists img,
            callbacks (log w) = [(img, Some png_magic, Error.None, 7)]
            /\ sv_size img = 8
            /\ exported sample_host (sample_request returning) ∅
                        sample_schedule png_magic.
Proof.
  split; [reflexivity|].
  destruct (callback_exactly_once sample_host (sample_request returning) ∅
              sample_schedule eq_refl) as (w & E & S & X & F & _).
  exists w. split; [exact E|]. split; [exact S|]. split; [exact X|].
  assert (I : pending w = Idle).
  { vm_compute in E. injection E as <-. reflexivity. }
  destruct (F I) as (img & seen & err & C & _ & O).
  assert (K : exists img', callbacks (log w)
                           = [(img', Some png_magic, Error.None, 7)]).
  { vm_compute in E. injection E as <-. eexists. vm_compute. reflexivity. }
  destruct K as (img' & K). rewrite K in C. injection C as <- <- <-.
  destruct O as [(_ & bytes & Q & B & _ & Z)|(NE & _)]; [|now elim NE].
  injection Q as <-. exists img'. split; [exact K|]. split; [exact Z|exact B].
Defined.
